(** * Home Assistant integration adapters: aladdin_connect, aemet, synology_dsm

    A shallow embedding of three integration modules and the properties
    their specification states about them:

    - [homeassistant/components/aladdin_connect/__init__.py]
    - [homeassistant/components/aemet/weather.py]
    - [homeassistant/components/synology_dsm/camera.py]

    Python dictionaries are [gmap]s, a subscript on a missing key raises
    [KeyError], exceptions are values of an error monad, and code that
    mutates [hass.data], the dispatcher or a stream object is written in a
    state-and-exception monad.  Calls on [_LOGGER] leave no trace in the
    state; the evaluation of their arguments is kept where it can raise
    ([self.camera_data.name]). *)

From Stdlib Require Import ZArith Ascii String List Bool.
From stdpp Require Import base option gmap strings list fin_maps pretty.

Local Open Scope string_scope.

(** ** Python exceptions *)

Module py.

(** The exception classes that the three modules name, together with the
    built-in classes between them and [BaseException], and some siblings
    that the [except] clauses do not name.

    Modelled from the spec: the classes of [homeassistant.exceptions] and
    of the vendor's [synology_dsm.exceptions] are declared outside src/.
    The spec has the authentication failure and the not-ready outcome as
    two distinct host-level signals and the camera kinds as
    vendor-specific; they are classes of their own under [Exception],
    apart from the built-in classes. *)
Inductive exc_class : Set :=
  (* builtins *)
  | BaseException | Exception
  | TypeError | AttributeError | AssertionError
  | LookupError | KeyError | IndexError
  | NameError | UnboundLocalError
  | ValueError | UnicodeError
  | OSError | ConnectionError | ConnectionRefusedError
  | ConnectionResetError | TimeoutError
  (* homeassistant.exceptions *)
  | HomeAssistantError | IntegrationError
  | ConfigEntryNotReady | ConfigEntryAuthFailed
  (* synology_dsm.exceptions *)
  | SynologyDSMException
  | SynologyDSMAPIErrorException | SynologyDSMRequestException
  | SynologyDSMAPINotExistsException | SynologyDSMLoginFailedException.

#[global] Instance exc_class_eq_dec : EqDecision exc_class.
Proof. solve_decision. Defined.

(** The direct base class ([__bases__], all single here). *)
Definition base (c : exc_class) : option exc_class :=
  match c with
  | BaseException => None
  | Exception => Some BaseException
  | TypeError | AttributeError | AssertionError | LookupError | NameError
  | ValueError | OSError | HomeAssistantError | SynologyDSMException =>
      Some Exception
  | KeyError | IndexError => Some LookupError
  | UnboundLocalError => Some NameError
  | UnicodeError => Some ValueError
  | ConnectionError | TimeoutError => Some OSError
  | ConnectionRefusedError | ConnectionResetError => Some ConnectionError
  | IntegrationError => Some HomeAssistantError
  | ConfigEntryNotReady | ConfigEntryAuthFailed => Some IntegrationError
  | SynologyDSMAPIErrorException | SynologyDSMRequestException
  | SynologyDSMAPINotExistsException | SynologyDSMLoginFailedException =>
      Some SynologyDSMException
  end.

(** The chain of classes from [c] up to the root ([__mro__]); the
    hierarchy above is at most five deep. *)
Fixpoint mro_fuel (n : nat) (c : exc_class) : list exc_class :=
  c :: match n, base c with
       | S n', Some p => mro_fuel n' p
       | _, _ => []
       end.

Definition mro : exc_class → list exc_class := mro_fuel 8.

Definition issubclass (c d : exc_class) : bool := bool_decide (d ∈ mro c).

(** An exception instance: its class, its arguments and, for
    [raise ... from ex], its [__cause__]. *)
#[local] Set Warnings "-register-all".
Inductive exc : Type :=
  Exc { exc_type : exc_class; exc_args : list string; exc_cause : option exc }.
#[local] Set Warnings "+register-all".

Definition new_exc (c : exc_class) (args : list string) : exc :=
  {| exc_type := c; exc_args := args; exc_cause := None |}.

(** [isinstance(e, (c1, ..., cn))], the test an [except (c1, ..., cn)]
    clause makes. *)
Definition isinstance (e : exc) (cs : list exc_class) : bool :=
  existsb (issubclass (exc_type e)) cs.

(** What evaluating an expression or running a call gives. *)
Inductive outcome (A : Type) : Type :=
  | Return (a : A)
  | Raise (e : exc).
Arguments Return {A} a.
Arguments Raise {A} e.

(** *** The state-and-exception monad

    State changes made before an exception is raised stay, as in Python. *)
Definition M (S A : Type) : Type := S → outcome A * S.

Definition ret {S A} (a : A) : M S A := λ s, (Return a, s).

Definition raise {S A} (e : exc) : M S A := λ s, (Raise e, s).

Definition bind {S A B} (m : M S A) (k : A → M S B) : M S B :=
  λ s, match m s with
       | (Return a, s') => k a s'
       | (Raise e, s') => (Raise e, s')
       end.

Definition lift {S A} (o : outcome A) : M S A := λ s, (o, s).

Definition get {S} : M S S := λ s, (Return s, s).

Definition modify {S} (f : S → S) : M S unit := λ s, (Return tt, f s).

(** [try: body  except cs as ex: handler ex] *)
Definition try_except {S A} (body : M S A) (cs : list exc_class)
    (handler : exc → M S A) : M S A :=
  λ s, match body s with
       | (Return a, s') => (Return a, s')
       | (Raise e, s') =>
           if isinstance e cs then handler e s' else (Raise e, s')
       end.

(** [raise c(args) from ex] *)
Definition raise_from {S A} (c : exc_class) (args : list string) (ex : exc)
    : M S A :=
  raise {| exc_type := c; exc_args := args; exc_cause := Some ex |}.

(** [d[k]] on a dictionary. *)
Definition getitem {S K V} `{Countable K} (repr : K → string)
    (d : gmap K V) (k : K) : M S V :=
  match d !! k with
  | Some v => ret v
  | None => raise (new_exc KeyError [repr k])
  end.

(** [assert x] for an optional object. *)
Definition assert_some {S A} (x : option A) : M S A :=
  match x with
  | Some a => ret a
  | None => raise (new_exc AssertionError [])
  end.

End py.

Import py.

Declare Scope py_scope.
Delimit Scope py_scope with py.
Notation "'let!' x ':=' e 'in' k" := (bind e (λ x, k))
  (at level 10, x name, e at level 100, k at level 200) : py_scope.
Notation "'run!' e 'in' k" := (bind e (λ _, k))
  (at level 10, e at level 100, k at level 200) : py_scope.
Local Open Scope py_scope.

(** ** Strings *)

(** Whether a character occurs in a string. *)
Fixpoint has_char (a : ascii) (s : string) : bool :=
  match s with
  | EmptyString => false
  | String b s' => bool_decide (a = b) || has_char a s'
  end.

(** ** Host platform objects shared by the integrations *)

(** [homeassistant.const.Platform], the members the modules use. *)
Inductive Platform : Set := CAMERA | COVER | WEATHER.

(** Modelled from the spec: [homeassistant.config_entries.ConfigEntry]
    is declared outside src/; it is a "key-value bag (username, password,
    options)" with an entry id and an optional unique id, of which the
    modules only read. *)
Record ConfigEntry : Type := {
  entry_id : string;
  unique_id : option string;
  data : gmap string string;
  options : gmap string Z;
}.

(** ** aladdin_connect/__init__.py *)

Module aladdin_connect.

(** The vendor client [aladdin_connect.AladdinConnectClient], an object
    built from the two credentials; what its [login] does is a parameter
    of [async_setup_entry] below. *)
Record AladdinConnectClient : Type := {
  acc_username : string;
  acc_password : string;
}.

(** The part of [hass] the module touches: the shared [hass.data]
    mapping (domain, then entry id) and the platforms forwarded through
    [hass.config_entries.async_setup_platforms]. *)
Record HomeAssistant : Type := {
  hass_data : gmap string (gmap string AladdinConnectClient);
  hass_forwarded : list (string * list Platform);
}.

Definition PLATFORMS : list Platform := [COVER].

(** [hass.data.setdefault(domain, {})[key] = v] *)
Definition setdefault_setitem (domain key : string) (v : AladdinConnectClient)
    (hass : HomeAssistant) : HomeAssistant :=
  let inner := match hass_data hass !! domain with
               | Some d => d
               | None => ∅
               end in
  {| hass_data := <[domain := <[key := v]> inner]> (hass_data hass);
     hass_forwarded := hass_forwarded hass |}.

(** [hass.config_entries.async_setup_platforms(entry, platforms)] *)
Definition async_setup_platforms (entry : ConfigEntry)
    (platforms : list Platform) (hass : HomeAssistant) : HomeAssistant :=
  {| hass_data := hass_data hass;
     hass_forwarded := hass_forwarded hass ++ [(entry_id entry, platforms)] |}.

Section setup.

(** [.const.DOMAIN] and the [homeassistant.const] keys. *)
Variables DOMAIN CONF_USERNAME CONF_PASSWORD : string.

(** What the vendor's blocking [login] does for a client: it returns a
    truth value or raises. *)
Variable login : AladdinConnectClient → outcome bool.

Definition async_setup_entry (entry : ConfigEntry)
    : M HomeAssistant bool :=
  let! username := getitem id (data entry) CONF_USERNAME in
  let! password := getitem id (data entry) CONF_PASSWORD in
  let acc := {| acc_username := username; acc_password := password |} in
  run! try_except
         (let! ok := lift (login acc) in
          if negb ok
          then raise (new_exc ConfigEntryAuthFailed ["Incorrect Password"])
          else ret tt)
         [TypeError; KeyError; NameError; ValueError]
         (λ ex, raise_from ConfigEntryNotReady [] ex) in
  run! modify (setdefault_setitem DOMAIN (entry_id entry) acc) in
  run! modify (async_setup_platforms entry PLATFORMS) in
  ret true.

End setup.

End aladdin_connect.

(** ** aemet/weather.py *)

Module aemet.

(** Modelled from the spec: [WeatherUpdateCoordinator] is declared
    outside src/; its snapshot is "a mapping produced by periodic
    polling, holding the latest vendor-reported fields", here from
    attribute keys to values of any type [V], next to the flag of the
    last poll.  The coordinator is shared by all entities, so it is the
    state the properties run in. *)
Record WeatherUpdateCoordinator (V : Type) : Type := {
  coordinator_data : gmap string V;
  coordinator_last_update_success : bool;
}.
Arguments coordinator_data {V} _.
Arguments coordinator_last_update_success {V} _.

(** The attributes [AemetWeather.__init__] sets. *)
Record AemetWeather : Type := {
  _forecast_mode : string;
  _attr_entity_registry_enabled_default : bool;
  _attr_name : string;
  _attr_unique_id : string;
}.

(** The entry of [hass.data[DOMAIN]] for one config entry: a dictionary
    whose keys [ENTRY_NAME] and [ENTRY_WEATHER_COORDINATOR] may be
    missing. *)
Record DomainData : Type := {
  entry_name : option string;
  entry_weather_coordinator : option unit;
}.

(** [str(x)] for an optional string, as an f-string renders it. *)
Definition str_opt (x : option string) : string :=
  match x with
  | Some s => s
  | None => "None"
  end.

Section weather.

Variable V : Type.

(** The constants imported from [.const]. *)
Variables ATTR_API_CONDITION ATTR_API_HUMIDITY ATTR_API_PRESSURE
  ATTR_API_TEMPERATURE ATTR_API_WIND_BEARING ATTR_API_WIND_SPEED : string.
Variable FORECAST_MODE_ATTR_API : gmap string string.
Variable FORECAST_MODE_DAILY : string.
Variable FORECAST_MODES : list string.
Variables DOMAIN ENTRY_NAME ENTRY_WEATHER_COORDINATOR : string.

Abbreviation Coord := (WeatherUpdateCoordinator V).

Definition AemetWeather__init__ (name unique_id forecast_mode : string)
    : AemetWeather :=
  {| _forecast_mode := forecast_mode;
     _attr_entity_registry_enabled_default :=
       bool_decide (forecast_mode = FORECAST_MODE_DAILY);
     _attr_name := name;
     _attr_unique_id := unique_id |}.

(** [self.coordinator.data[key]] *)
Definition coordinator_getitem (key : string) : M Coord V :=
  let! c := get in
  getitem id (coordinator_data c) key.

Definition condition (self : AemetWeather) : M Coord V :=
  coordinator_getitem ATTR_API_CONDITION.

Definition forecast (self : AemetWeather) : M Coord V :=
  let! key := getitem id FORECAST_MODE_ATTR_API (_forecast_mode self) in
  coordinator_getitem key.

Definition humidity (self : AemetWeather) : M Coord V :=
  coordinator_getitem ATTR_API_HUMIDITY.

Definition pressure (self : AemetWeather) : M Coord V :=
  coordinator_getitem ATTR_API_PRESSURE.

Definition temperature (self : AemetWeather) : M Coord V :=
  coordinator_getitem ATTR_API_TEMPERATURE.

Definition wind_bearing (self : AemetWeather) : M Coord V :=
  coordinator_getitem ATTR_API_WIND_BEARING.

Definition wind_speed (self : AemetWeather) : M Coord V :=
  coordinator_getitem ATTR_API_WIND_SPEED.

(** The dictionary subscript [domain_data[key]] on the two keys the
    module uses. *)
Definition domain_getitem {S A} (field : option A) (key : string)
    : M S A :=
  match field with
  | Some a => ret a
  | None => raise (new_exc KeyError [key])
  end.

(** The loop of [async_setup_entry] over the forecast modes. *)
Fixpoint build_entities {S} (domain_data : DomainData)
    (config_entry : ConfigEntry) (modes : list string)
    : M S (list AemetWeather) :=
  match modes with
  | [] => ret []
  | mode :: rest =>
      let! n := domain_getitem (entry_name domain_data) ENTRY_NAME in
      let name := n ++ " " ++ mode in
      let unique_id := str_opt (unique_id config_entry) ++ " " ++ mode in
      let! entities := build_entities domain_data config_entry rest in
      ret (AemetWeather__init__ name unique_id mode :: entities)
  end.

(** [async_setup_entry]: the state is [hass.data[DOMAIN]] and the
    result is the list handed to [async_add_entities] (nothing is added
    when the list is empty). *)
Definition async_setup_entry (config_entry : ConfigEntry)
    : M (gmap string (gmap string DomainData)) (list AemetWeather) :=
  let! hass_data := get in
  let! domain := getitem id hass_data DOMAIN in
  let! domain_data := getitem id domain (entry_id config_entry) in
  let! weather_coordinator :=
    domain_getitem (entry_weather_coordinator domain_data)
      ENTRY_WEATHER_COORDINATOR in
  build_entities domain_data config_entry FORECAST_MODES.

End weather.

End aemet.

(** ** synology_dsm/camera.py *)

Module synology_dsm.

(** Modelled from the spec: the vendor's [SynoCamera] is declared outside
    src/; the camera metadata is "id, name, model,
    enabled/recording/motion-detection flags, live-view URL".  [id] is the
    numeric camera id Surveillance Station reports. *)
Module SynoCamera.
Record t : Type := {
  id : Z;
  name : string;
  model : string;
  is_enabled : bool;
  is_recording : bool;
  is_motion_detection_enabled : bool;
  live_view_rtsp : string;
}.
End SynoCamera.

(** The vendor's [SynoSurveillanceStation]: what each call the entity makes
    gives, a result or an exception. *)
Module SynoSurveillanceStation.
Record t : Type := {
  get_camera_image : string → Z → outcome (list Byte.byte);
  enable_motion_detection : string → outcome unit;
  disable_motion_detection : string → outcome unit;
}.
End SynoSurveillanceStation.

(** The calls made on the vendor API, in order. *)
Inductive ApiCall : Type :=
  | GetCameraImage (camera_id : string) (quality : Z)
  | EnableMotionDetection (camera_id : string)
  | DisableMotionDetection (camera_id : string).

(** [DataUpdateCoordinator[dict[str, dict[str, SynoCamera]]]]: the
    snapshot and the flag of the last poll. *)
Record DataUpdateCoordinator : Type := {
  coordinator_data : gmap string (gmap string SynoCamera.t);
  last_update_success : bool;
}.

Record SynologyDSMCameraEntityDescription : Type := {
  api_key : string;
  key : string;
  name : string;
  entity_registry_enabled_default : bool;
}.

(** [EntityPlatform], of which the entity reads [config_entry]. *)
Record EntityPlatform : Type := {
  config_entry : option ConfigEntry;
}.

(** Modelled from the spec: the host's [Stream] object is not under src/;
    the entity "updates its live stream object in place" with the new
    URL, so a stream is its source URL. *)
Record Stream : Type := { source : string }.

(** Modelled from the spec: [Stream.update_source] replaces the source
    URL of the stream. *)
Definition update_source (url : string) (s : Stream) : Stream :=
  {| source := url |}.

(** A camera entity.  [platform] is [None] until the host adds the entity;
    [stream] is [None] or a reference to a stream object in the store. *)
Record SynoDSMCamera : Type := {
  entity_description : SynologyDSMCameraEntityDescription;
  snapshot_quality : Z;
  platform : option EntityPlatform;
  stream : option nat;
}.

(** The objects the entities share: the coordinator, the entities
    themselves (an entity is referred to by its index), the stream
    objects, the callbacks connected to the dispatcher (signal name and
    the entity whose [_handle_signal] it is) and the log of vendor
    calls. *)
Record World : Type := {
  coordinator : DataUpdateCoordinator;
  entities : list SynoDSMCamera;
  streams : gmap nat Stream;
  dispatcher : list (string * nat);
  api_calls : list ApiCall;
}.

Definition with_streams (f : gmap nat Stream → gmap nat Stream) (w : World)
    : World :=
  {| coordinator := coordinator w; entities := entities w;
     streams := f (streams w); dispatcher := dispatcher w;
     api_calls := api_calls w |}.

Definition with_dispatcher (f : list (string * nat) → list (string * nat))
    (w : World) : World :=
  {| coordinator := coordinator w; entities := entities w;
     streams := streams w; dispatcher := f (dispatcher w);
     api_calls := api_calls w |}.

Definition with_api_calls (f : list ApiCall → list ApiCall) (w : World)
    : World :=
  {| coordinator := coordinator w; entities := entities w;
     streams := streams w; dispatcher := dispatcher w;
     api_calls := f (api_calls w) |}.

(** A call on the vendor API: it is logged, then its result is returned
    or its exception raised. *)
Definition api_call {A} (c : ApiCall) (o : outcome A) : M World A :=
  run! modify (with_api_calls (λ l, (l ++ [c])%list)) in
  lift o.

(** Modelled from the spec: [async_dispatcher_connect] is host code not
    under src/; a connection records the signal name and the callback. *)
Definition async_dispatcher_connect (signal : string) (target : nat)
    : M World unit :=
  modify (with_dispatcher (λ l, (l ++ [(signal, target)])%list)).

(** [w'] is [w] except for stream objects selected by [R], whose source
    has been replaced by [url]. *)
Definition streams_updated (url : string) (R : nat → Prop) (w w' : World)
    : Prop :=
  coordinator w' = coordinator w
  ∧ entities w' = entities w
  ∧ dispatcher w' = dispatcher w
  ∧ api_calls w' = api_calls w
  ∧ ∀ r, streams w' !! r = streams w !! r
         ∨ (R r ∧ streams w' !! r = update_source url <$> streams w !! r).

(** The camera a snapshot key stands for in the current coordinator
    data, if there is one. *)
Definition snapshot_camera (w : World) (camera_id : string)
    : option SynoCamera.t :=
  match coordinator_data (coordinator w) !! "cameras" with
  | Some cameras => cameras !! camera_id
  | None => None
  end.

Section camera.

(** The constants imported from [.const] and from the vendor. *)
Variable SIGNAL_CAMERA_SOURCE_CHANGED : string.
Variable CONF_SNAPSHOT_QUALITY : string.
Variable DEFAULT_SNAPSHOT_QUALITY : Z.
Variable CAMERA_API_KEY : string.

(** [self._api.surveillance_station] *)
Variable surveillance_station : SynoSurveillanceStation.t.

(** [coordinator.data["cameras"][camera_id]] *)
Definition cameras_getitem (camera_id : string) : M World SynoCamera.t :=
  let! w := get in
  let! cameras := getitem id (coordinator_data (coordinator w)) "cameras" in
  getitem id cameras camera_id.

(** [options.get(key, default)] *)
Definition options_get (opts : gmap string Z) (k : string) (d : Z) : Z :=
  match opts !! k with
  | Some v => v
  | None => d
  end.

Definition SynoDSMCamera__init__ (api_entry : ConfigEntry)
    (camera_id : string) : M World SynoDSMCamera :=
  let! cam_name := cameras_getitem camera_id in
  let! cam_enabled := cameras_getitem camera_id in
  let description :=
    {| api_key := CAMERA_API_KEY;
       key := camera_id;
       name := SynoCamera.name cam_name;
       entity_registry_enabled_default :=
         SynoCamera.is_enabled cam_enabled |} in
  ret {| entity_description := description;
         snapshot_quality :=
           options_get (options api_entry) CONF_SNAPSHOT_QUALITY
             DEFAULT_SNAPSHOT_QUALITY;
         platform := None;
         stream := None |}.

Definition camera_data (self : SynoDSMCamera) : M World SynoCamera.t :=
  cameras_getitem (key (entity_description self)).

(** [x and y] on truth values evaluates [y] only when [x] is true. *)
Definition available (self : SynoDSMCamera) : M World bool :=
  let! cam := camera_data self in
  if SynoCamera.is_enabled cam
  then let! w := get in ret (last_update_success (coordinator w))
  else ret false.

Definition is_recording (self : SynoDSMCamera) : M World bool :=
  let! cam := camera_data self in
  ret (SynoCamera.is_recording cam).

Definition motion_detection_enabled (self : SynoDSMCamera) : M World bool :=
  let! cam := camera_data self in
  ret (SynoCamera.is_motion_detection_enabled cam).

(** The callback [_handle_signal] of [_listen_source_updates]; the
    argument of the log call, [self.camera_data.name], is evaluated
    before the stream is updated. *)
Definition _handle_signal (self : SynoDSMCamera) (url : string)
    : M World unit :=
  match stream self with
  | Some r =>
      run! camera_data self in
      modify (with_streams (alter (update_source url) r))
  | None => ret tt
  end.

(** The f-string naming the signal of one camera of one config entry;
    [pretty] is the decimal rendering of the camera id. *)
Definition signal_name (entry : string) (camera : Z) : string :=
  SIGNAL_CAMERA_SOURCE_CHANGED ++ "_" ++ entry ++ "_" ++ pretty camera.

(** [self] is the index of the entity in the store: the callback it
    connects closes over the entity object, not over its fields. *)
Definition _listen_source_updates (self : nat) : M World unit :=
  let! w := get in
  match entities w !! self with
  | None => ret tt
  | Some ent =>
      let! p := assert_some (platform ent) in
      let! ce := assert_some (config_entry p) in
      let! cam := camera_data ent in
      async_dispatcher_connect
        (signal_name (entry_id ce) (SynoCamera.id cam)) self
  end.

Definition async_added_to_hass (self : nat) : M World unit :=
  _listen_source_updates self.

Definition camera_image (self : SynoDSMCamera)
    : M World (option (list Byte.byte)) :=
  run! camera_data self in
  let! av := available self in
  if negb av then ret None
  else
    try_except
      (let! img :=
         api_call
           (GetCameraImage (key (entity_description self))
              (snapshot_quality self))
           (SynoSurveillanceStation.get_camera_image surveillance_station
              (key (entity_description self)) (snapshot_quality self)) in
       ret (Some img))
      [SynologyDSMAPIErrorException; SynologyDSMRequestException;
       ConnectionRefusedError]
      (λ err, run! camera_data self in ret None).

Definition stream_source (self : SynoDSMCamera)
    : M World (option string) :=
  run! camera_data self in
  let! av := available self in
  if negb av then ret None
  else
    let! cam := camera_data self in
    ret (Some (SynoCamera.live_view_rtsp cam)).

Definition enable_motion_detection (self : SynoDSMCamera)
    : M World unit :=
  run! camera_data self in
  api_call (EnableMotionDetection (key (entity_description self)))
    (SynoSurveillanceStation.enable_motion_detection surveillance_station
       (key (entity_description self))).

Definition disable_motion_detection (self : SynoDSMCamera)
    : M World unit :=
  run! camera_data self in
  api_call (DisableMotionDetection (key (entity_description self)))
    (SynoSurveillanceStation.disable_motion_detection surveillance_station
       (key (entity_description self))).

(** Modelled from the spec: [async_dispatcher_send] is host code not
    under src/; a signal "keyed by config-entry id and camera id" is
    delivered to the callbacks connected under exactly that signal
    name, in the order they were connected. *)
Fixpoint call_targets (targets : list nat) (url : string)
    : M World unit :=
  match targets with
  | [] => ret tt
  | i :: rest =>
      let! w := get in
      run! match entities w !! i with
           | Some ent => _handle_signal ent url
           | None => ret tt
           end in
      call_targets rest url
  end.

Definition targets_of (signal : string) (l : list (string * nat))
    : list nat :=
  snd <$> filter (λ c, c.1 = signal) l.

Definition async_dispatcher_send (signal url : string) : M World unit :=
  let! w := get in
  call_targets (targets_of signal (dispatcher w)) url.

(** The config entry id and the camera id under which the entity at
    index [i] listens, as [_listen_source_updates] reads them. *)
Definition listening_key (w : World) (i : nat) : option (string * Z) :=
  match entities w !! i with
  | Some ent =>
      match platform ent with
      | Some p =>
          match config_entry p,
                snapshot_camera w (key (entity_description ent)) with
          | Some ce, Some cam => Some (entry_id ce, SynoCamera.id cam)
          | _, _ => None
          end
      | None => None
      end
  | None => None
  end.

(** A connection of the dispatcher is one [_listen_source_updates]
    makes: the callback of entity [i] under the signal name of its
    listening key. *)
Definition connection_ok (w : World) (c : string * nat) : bool :=
  match listening_key w c.2 with
  | Some (entry, camera) => bool_decide (c.1 = signal_name entry camera)
  | None => false
  end.

Definition dispatcher_ok (w : World) : bool :=
  forallb (connection_ok w) (dispatcher w).

End camera.

(** *** Platform setup and device information *)

(** The integration's [SynoApi] wrapper, of which [camera.py] reads the
    API table of the NAS ([api.dsm.apis], by key), the serial number of
    the NAS ([api.information.serial]) and the config entry
    ([api._entry]). *)
Record SynoApi : Type := {
  dsm_apis : gset string;
  information_serial : string;
  _entry : ConfigEntry;
}.

(** The dictionary [hass.data[DOMAIN][entry.unique_id]]: its keys
    [SYNO_API] and [COORDINATOR_CAMERAS] may be missing.  The camera
    coordinator itself is the one of the [World]. *)
Record EntryData : Type := {
  entry_syno_api : option SynoApi;
  entry_coordinator_cameras : option unit;
}.

(** [DeviceInfo], with the fields [device_info] sets. *)
Module DeviceInfo.
Record t : Type := {
  identifiers : gset (string * string);
  name : string;
  model : string;
  via_device : string * string;
}.
End DeviceInfo.

Section platform.

(** The constants imported from [.const] and from the vendor. *)
Variables DOMAIN SYNO_API COORDINATOR_CAMERAS : string.
Variables CAMERA_API_KEY INFO_API_KEY : string.
Variable CONF_SNAPSHOT_QUALITY : string.
Variable DEFAULT_SNAPSHOT_QUALITY : Z.

(** What the host's [coordinator.async_config_entry_first_refresh] does:
    it may replace the snapshot, or raise. *)
Variable async_config_entry_first_refresh : M World unit.

(** The subscript [data[key]] on the two keys the module uses. *)
Definition entry_data_getitem {A} (field : option A) (k : string)
    : M World A :=
  match field with
  | Some a => ret a
  | None => raise (new_exc KeyError [k])
  end.

(** The generator [SynoDSMCamera(api, coordinator, camera_id) for
    camera_id in ...], consumed in full. *)
Fixpoint construct_cameras (api : SynoApi) (camera_ids : list string)
    : M World (list SynoDSMCamera) :=
  match camera_ids with
  | [] => ret []
  | camera_id :: rest =>
      let! ent := SynoDSMCamera__init__ CONF_SNAPSHOT_QUALITY
                    DEFAULT_SNAPSHOT_QUALITY CAMERA_API_KEY (_entry api)
                    camera_id in
      let! ents := construct_cameras api rest in
      ret (ent :: ents)
  end.

(** [async_setup_entry]: [hass.data] is only read.  The result is [None]
    when the function returns without calling [async_add_entities], and
    otherwise the entities handed to it.  Python goes through the
    cameras in the order of insertion, which a [gmap] does not keep: the
    entities come in the order of [map_to_list]. *)
Definition async_setup_entry
    (hass_data : gmap string (gmap string EntryData)) (entry : ConfigEntry)
    : M World (option (list SynoDSMCamera)) :=
  let! domain := getitem id hass_data DOMAIN in
  let! data :=
    match unique_id entry with
    | Some u => getitem id domain u
    | None => raise (new_exc KeyError ["None"])
    end in
  let! api := entry_data_getitem (entry_syno_api data) SYNO_API in
  if negb (bool_decide (CAMERA_API_KEY ∈ dsm_apis api)) then ret None
  else
    run! entry_data_getitem (entry_coordinator_cameras data)
           COORDINATOR_CAMERAS in
    run! async_config_entry_first_refresh in
    let! w := get in
    let! cameras := getitem id (coordinator_data (coordinator w)) "cameras" in
    let! ents := construct_cameras api (map_to_list cameras).*1 in
    ret (Some ents).

(** The property [device_info]: the camera is looked up for its id, its
    name and its model in turn. *)
Definition device_info (api : SynoApi) (self : SynoDSMCamera)
    : M World DeviceInfo.t :=
  let! cam_id := camera_data self in
  let! cam_name := camera_data self in
  let! cam_model := camera_data self in
  ret {| DeviceInfo.identifiers :=
           {[ (DOMAIN,
               information_serial api ++ "_" ++ pretty (SynoCamera.id cam_id)) ]};
         DeviceInfo.name := SynoCamera.name cam_name;
         DeviceInfo.model := SynoCamera.model cam_model;
         DeviceInfo.via_device :=
           (DOMAIN, information_serial api ++ "_" ++ INFO_API_KEY) |}.

End platform.

End synology_dsm.

(** ** Sample data

    Concrete objects on which the properties below are exercised. *)

Module samples.

Definition entry : ConfigEntry :=
  {| entry_id := "0a1b2c";
     unique_id := Some "nas";
     data := {[ "username" := "user@example.org"; "password" := "secret" ]};
     options := ∅ |}.

Definition hass : aladdin_connect.HomeAssistant :=
  {| aladdin_connect.hass_data := ∅;
     aladdin_connect.hass_forwarded := [] |}.

(** Vendor logins: one rejecting the credentials, one accepting them,
    one failing on a malformed reply and one on a refused connection. *)
Definition login_rejects (_ : aladdin_connect.AladdinConnectClient)
    : outcome bool := Return false.
Definition login_accepts (_ : aladdin_connect.AladdinConnectClient)
    : outcome bool := Return true.
Definition login_value_error (_ : aladdin_connect.AladdinConnectClient)
    : outcome bool := Raise (new_exc ValueError ["bad reply"]).
Definition login_refused (_ : aladdin_connect.AladdinConnectClient)
    : outcome bool := Raise (new_exc ConnectionRefusedError []).

(** A weather snapshot with every attribute, and an empty one. *)
Definition FORECAST_MODE_ATTR_API : gmap string string :=
  {[ "daily" := "forecast-daily"; "hourly" := "forecast-hourly" ]}.

Definition weather_snapshot : aemet.WeatherUpdateCoordinator string :=
  {| aemet.coordinator_data :=
       {[ "condition" := "sunny"; "humidity" := "55";
          "pressure" := "1013.2"; "temperature" := "21.5";
          "wind-bearing" := "270"; "wind-speed" := "12.0";
          "forecast-daily" := "[daily]"; "forecast-hourly" := "[hourly]" ]};
     aemet.coordinator_last_update_success := true |}.

Definition weather_snapshot_empty : aemet.WeatherUpdateCoordinator string :=
  {| aemet.coordinator_data := ∅;
     aemet.coordinator_last_update_success := true |}.

Definition weather_hourly : aemet.AemetWeather :=
  aemet.AemetWeather__init__ "daily" "Home hourly" "nas hourly" "hourly".

(** Two cameras of one NAS; the second is disabled. *)
Definition camera1 : synology_dsm.SynoCamera.t :=
  {| synology_dsm.SynoCamera.id := 1;
     synology_dsm.SynoCamera.name := "Door";
     synology_dsm.SynoCamera.model := "M1";
     synology_dsm.SynoCamera.is_enabled := true;
     synology_dsm.SynoCamera.is_recording := false;
     synology_dsm.SynoCamera.is_motion_detection_enabled := true;
     synology_dsm.SynoCamera.live_view_rtsp := "rtsp://nas/1" |}.

Definition camera2 : synology_dsm.SynoCamera.t :=
  {| synology_dsm.SynoCamera.id := 2;
     synology_dsm.SynoCamera.name := "Yard";
     synology_dsm.SynoCamera.model := "M2";
     synology_dsm.SynoCamera.is_enabled := false;
     synology_dsm.SynoCamera.is_recording := false;
     synology_dsm.SynoCamera.is_motion_detection_enabled := false;
     synology_dsm.SynoCamera.live_view_rtsp := "rtsp://nas/2" |}.

Definition description (k n : string) (enabled : bool)
    : synology_dsm.SynologyDSMCameraEntityDescription :=
  {| synology_dsm.api_key := "SYNO.SurveillanceStation.Camera";
     synology_dsm.key := k;
     synology_dsm.name := n;
     synology_dsm.entity_registry_enabled_default := enabled |}.

(** The entities of the two cameras once the host has added them: each
    has its platform and its own stream object. *)
Definition entity1 : synology_dsm.SynoDSMCamera :=
  {| synology_dsm.entity_description := description "1" "Door" true;
     synology_dsm.snapshot_quality := 1;
     synology_dsm.platform :=
       Some {| synology_dsm.config_entry := Some entry |};
     synology_dsm.stream := Some 0%nat |}.

Definition entity2 : synology_dsm.SynoDSMCamera :=
  {| synology_dsm.entity_description := description "2" "Yard" false;
     synology_dsm.snapshot_quality := 1;
     synology_dsm.platform :=
       Some {| synology_dsm.config_entry := Some entry |};
     synology_dsm.stream := Some 1%nat |}.

Definition world : synology_dsm.World :=
  {| synology_dsm.coordinator :=
       {| synology_dsm.coordinator_data :=
            {[ "cameras" := {[ "1" := camera1; "2" := camera2 ]} ]};
          synology_dsm.last_update_success := true |};
     synology_dsm.entities := [entity1; entity2];
     synology_dsm.streams :=
       {[ 0%nat := {| synology_dsm.source := "rtsp://nas/1" |};
          1%nat := {| synology_dsm.source := "rtsp://nas/2" |} ]};
     synology_dsm.dispatcher := [];
     synology_dsm.api_calls := [] |}.

Definition SIGNAL_CAMERA_SOURCE_CHANGED : string :=
  "synology_dsm.camera_stream_source_changed".

(** The world once both entities have been added to the host. *)
Definition world_listening : synology_dsm.World :=
  (synology_dsm.async_added_to_hass SIGNAL_CAMERA_SOURCE_CHANGED 1
     (synology_dsm.async_added_to_hass SIGNAL_CAMERA_SOURCE_CHANGED 0
        world).2).2.

Definition jpeg : list Byte.byte := [Byte.xff; Byte.xd8; Byte.xff; Byte.xd9].

(** A station that answers, and one whose requests fail. *)
Definition station_up : synology_dsm.SynoSurveillanceStation.t :=
  {| synology_dsm.SynoSurveillanceStation.get_camera_image :=
       λ _ _, Return jpeg;
     synology_dsm.SynoSurveillanceStation.enable_motion_detection :=
       λ _, Return tt;
     synology_dsm.SynoSurveillanceStation.disable_motion_detection :=
       λ _, Return tt |}.

Definition request_failed : exc :=
  new_exc SynologyDSMRequestException ["timed out"].

Definition station_down : synology_dsm.SynoSurveillanceStation.t :=
  {| synology_dsm.SynoSurveillanceStation.get_camera_image :=
       λ _ _, Raise request_failed;
     synology_dsm.SynoSurveillanceStation.enable_motion_detection :=
       λ _, Raise request_failed;
     synology_dsm.SynoSurveillanceStation.disable_motion_detection :=
       λ _, Raise request_failed |}.

(** A second config entry, and entries lacking a credential. *)
Definition entry2 : ConfigEntry :=
  {| entry_id := "7f8e9d";
     unique_id := Some "garage";
     data := {[ "username" := "other@example.org"; "password" := "hunter2" ]};
     options := ∅ |}.

Definition entry_no_username : ConfigEntry :=
  {| entry_id := "0a1b2c";
     unique_id := None;
     data := {[ "password" := "secret" ]};
     options := ∅ |}.

Definition entry_no_password : ConfigEntry :=
  {| entry_id := "0a1b2c";
     unique_id := None;
     data := {[ "username" := "user@example.org" ]};
     options := ∅ |}.

(** [hass.data] of the weather integration for the sample entry, with
    and without the entry name. *)
Definition FORECAST_MODES : list string := ["daily"; "hourly"].

Definition weather_domain_data : aemet.DomainData :=
  {| aemet.entry_name := Some "Home";
     aemet.entry_weather_coordinator := Some tt |}.

Definition weather_hass_data : gmap string (gmap string aemet.DomainData) :=
  {[ "aemet" := {[ "0a1b2c" := weather_domain_data ]} ]}.

Definition weather_domain_data_unnamed : aemet.DomainData :=
  {| aemet.entry_name := None;
     aemet.entry_weather_coordinator := Some tt |}.

Definition weather_hass_data_unnamed
    : gmap string (gmap string aemet.DomainData) :=
  {[ "aemet" := {[ "0a1b2c" := weather_domain_data_unnamed ]} ]}.

(** An entity as [__init__] leaves it, one whose platform has no config
    entry, and one whose camera is not in the snapshot. *)
Definition entity_unplaced : synology_dsm.SynoDSMCamera :=
  {| synology_dsm.entity_description := description "1" "Door" true;
     synology_dsm.snapshot_quality := 1;
     synology_dsm.platform := None;
     synology_dsm.stream := None |}.

Definition entity_detached : synology_dsm.SynoDSMCamera :=
  {| synology_dsm.entity_description := description "1" "Door" true;
     synology_dsm.snapshot_quality := 1;
     synology_dsm.platform := Some {| synology_dsm.config_entry := None |};
     synology_dsm.stream := None |}.

Definition entity_ghost : synology_dsm.SynoDSMCamera :=
  {| synology_dsm.entity_description := description "9" "Gone" true;
     synology_dsm.snapshot_quality := 1;
     synology_dsm.platform :=
       Some {| synology_dsm.config_entry := Some entry |};
     synology_dsm.stream := Some 0%nat |}.

Definition world_odd : synology_dsm.World :=
  {| synology_dsm.coordinator := synology_dsm.coordinator world;
     synology_dsm.entities := [entity_unplaced; entity_detached; entity_ghost];
     synology_dsm.streams := synology_dsm.streams world;
     synology_dsm.dispatcher := [];
     synology_dsm.api_calls := [] |}.

(** The integration's API wrapper for a NAS with and without
    Surveillance Station, and [hass.data] holding one or the other. *)
Definition CAMERA_API_KEY : string := "SYNO.SurveillanceStation.Camera".

Definition api_with_cameras : synology_dsm.SynoApi :=
  {| synology_dsm.dsm_apis := {[ "SYNO.API.Info"; CAMERA_API_KEY ]};
     synology_dsm.information_serial := "1920PDN001";
     synology_dsm._entry := entry |}.

Definition api_without_cameras : synology_dsm.SynoApi :=
  {| synology_dsm.dsm_apis := {[ "SYNO.API.Info" ]};
     synology_dsm.information_serial := "1920PDN001";
     synology_dsm._entry := entry |}.

Definition camera_entry_data (api : synology_dsm.SynoApi)
    : synology_dsm.EntryData :=
  {| synology_dsm.entry_syno_api := Some api;
     synology_dsm.entry_coordinator_cameras := Some tt |}.

Definition camera_hass_data (api : synology_dsm.SynoApi)
    : gmap string (gmap string synology_dsm.EntryData) :=
  {[ "synology_dsm" := {[ "nas" := camera_entry_data api ]} ]}.

(** A first refresh that keeps the snapshot, and one that fails. *)
Definition refresh_ok : M synology_dsm.World unit := ret tt.

Definition refresh_fails : M synology_dsm.World unit :=
  raise (new_exc ConfigEntryNotReady []).

End samples.

(** * Properties *)

(** ** The exception hierarchy *)

(** The classes an [except (TypeError, KeyError, NameError, ValueError)]
    clause catches are the four named ones and their subclasses. *)
Lemma login_except_classes (c : exc_class) :
  existsb (issubclass c) [TypeError; KeyError; NameError; ValueError] = true
  ↔ c ∈ [TypeError; KeyError; NameError; UnboundLocalError; ValueError;
         UnicodeError].
Proof.
  split.
  - destruct c; vm_compute; intros Hc; try discriminate Hc;
      repeat first [ apply list_elem_of_here | apply list_elem_of_further ].
  - intros Hc. repeat (apply elem_of_cons in Hc as [-> | Hc]; [reflexivity |]).
    by apply elem_of_nil in Hc.
Qed.

(** The host's two setup outcomes are not caught by that clause. *)
Lemma setup_outcomes_not_caught (e : exc) :
  exc_type e = ConfigEntryAuthFailed ∨ exc_type e = ConfigEntryNotReady →
  isinstance e [TypeError; KeyError; NameError; ValueError] = false.
Proof. unfold isinstance. by intros [-> | ->]. Qed.

(** ** aladdin_connect *)

Section aladdin_connect_properties.

Import aladdin_connect.

Variables DOMAIN CONF_USERNAME CONF_PASSWORD : string.
Variable login : AladdinConnectClient → outcome bool.

Abbreviation setup :=
  (async_setup_entry DOMAIN CONF_USERNAME CONF_PASSWORD login).

(** The run of [async_setup_entry] once both credentials are found, by
    what the vendor's [login] does. *)
Lemma async_setup_entry_cases entry hass username password :
  data entry !! CONF_USERNAME = Some username →
  data entry !! CONF_PASSWORD = Some password →
  let acc := {| acc_username := username; acc_password := password |} in
  setup entry hass =
    match login acc with
    | Return true =>
        (Return true,
         async_setup_platforms entry PLATFORMS
           (setdefault_setitem DOMAIN (entry_id entry) acc hass))
    | Return false =>
        (Raise (new_exc ConfigEntryAuthFailed ["Incorrect Password"]), hass)
    | Raise e =>
        if isinstance e [TypeError; KeyError; NameError; ValueError]
        then (Raise {| exc_type := ConfigEntryNotReady; exc_args := [];
                       exc_cause := Some e |}, hass)
        else (Raise e, hass)
    end.
Proof.
  intros Hu Hp acc.
  unfold async_setup_entry, bind, getitem, try_except, lift.
  rewrite Hu, Hp. cbn -[isinstance]. fold acc.
  destruct (login acc) as [[|]|e]; cbn -[isinstance]; try reflexivity.
  by destruct (isinstance e _).
Qed.

(** A missing credential raises [KeyError] before the client exists. *)
Lemma async_setup_entry_missing_credential entry hass :
  data entry !! CONF_USERNAME = None ∨ data entry !! CONF_PASSWORD = None →
  ∃ k, setup entry hass = (Raise (new_exc KeyError [k]), hass).
Proof.
  unfold async_setup_entry, bind, getitem.
  destruct (data entry !! CONF_USERNAME) as [u|] eqn:Hu; cbn.
  - intros [Hn | Hn]; [discriminate Hn |]. rewrite Hn. cbn. eauto.
  - intros _. eauto.
Qed.

(** An exception out of [async_setup_entry] leaves [hass] as it was. *)
Lemma async_setup_entry_raise_frame entry hass e hass' :
  setup entry hass = (Raise e, hass') → hass' = hass.
Proof.
  destruct (data entry !! CONF_USERNAME) as [u|] eqn:Hu;
    [destruct (data entry !! CONF_PASSWORD) as [p|] eqn:Hp |].
  - rewrite (async_setup_entry_cases _ _ _ _ Hu Hp).
    destruct (login _) as [[|]|e']; [discriminate | congruence |].
    destruct (isinstance e' _); congruence.
  - destruct (async_setup_entry_missing_credential entry hass) as [k ->];
      [by right | congruence].
  - destruct (async_setup_entry_missing_credential entry hass) as [k ->];
      [by left | congruence].
Qed.

(** C3: when the vendor login returns without raising but its result is
    falsy, [async_setup_entry] raises [ConfigEntryAuthFailed] (which is
    not [ConfigEntryNotReady]), and [hass] is untouched. *)
Theorem login_falsy_raises_auth_failed entry hass username password :
  data entry !! CONF_USERNAME = Some username →
  data entry !! CONF_PASSWORD = Some password →
  login {| acc_username := username; acc_password := password |}
    = Return false →
  setup entry hass
    = (Raise (new_exc ConfigEntryAuthFailed ["Incorrect Password"]), hass)
  ∧ exc_type (new_exc ConfigEntryAuthFailed ["Incorrect Password"])
    ≠ ConfigEntryNotReady.
Proof.
  intros Hu Hp Hlogin. split; [| discriminate].
  rewrite (async_setup_entry_cases _ _ _ _ Hu Hp). by rewrite Hlogin.
Qed.

(** C4: when the login step raises an exception of one of the kinds
    [TypeError], [KeyError], [NameError], [ValueError] (the class itself
    or a subclass, as the [except] clause tests),
    [async_setup_entry] raises [ConfigEntryNotReady] (chained from the
    original) and the original exception does not propagate. *)
Theorem login_client_error_raises_not_ready entry hass username password e :
  data entry !! CONF_USERNAME = Some username →
  data entry !! CONF_PASSWORD = Some password →
  login {| acc_username := username; acc_password := password |}
    = Raise e →
  isinstance e [TypeError; KeyError; NameError; ValueError] = true →
  setup entry hass
    = (Raise {| exc_type := ConfigEntryNotReady; exc_args := [];
                exc_cause := Some e |}, hass).
Proof.
  intros Hu Hp Hlogin He.
  by rewrite (async_setup_entry_cases _ _ _ _ Hu Hp), Hlogin, He.
Qed.

(** C9: the client is stored in [hass.data] only after login succeeds.
    If [async_setup_entry] exits with [ConfigEntryAuthFailed] or
    [ConfigEntryNotReady], [hass.data] is as it was (no entry-id key is
    added); and if [hass.data] has changed, the setup returned, the
    login had returned true, and the client is stored under the domain
    and the entry id. *)
Theorem hass_data_written_only_after_login entry hass o hass' :
  setup entry hass = (o, hass') →
  (∀ e, o = Raise e →
        exc_type e = ConfigEntryAuthFailed ∨ exc_type e = ConfigEntryNotReady →
        hass_data hass' = hass_data hass)
  ∧ (hass_data hass' ≠ hass_data hass →
     o = Return true
     ∧ ∃ acc, login acc = Return true
              ∧ ∃ d, hass_data hass' !! DOMAIN = Some d
                     ∧ d !! entry_id entry = Some acc).
Proof.
  intros Hrun. split.
  - intros e -> _. by apply async_setup_entry_raise_frame in Hrun as ->.
  - intros Hchanged.
    destruct o as [b|e];
      [| apply async_setup_entry_raise_frame in Hrun; by subst].
    destruct (data entry !! CONF_USERNAME) as [u|] eqn:Hu;
      [destruct (data entry !! CONF_PASSWORD) as [p|] eqn:Hp |].
    + rewrite (async_setup_entry_cases _ _ _ _ Hu Hp) in Hrun.
      destruct (login _) as [[|]|e'] eqn:Hlogin;
        [| discriminate | destruct (isinstance e' _); discriminate].
      injection Hrun as <- <-. split; [reflexivity |].
      eexists; split; [exact Hlogin |]. cbn.
      eexists; split; [apply lookup_insert_eq | apply lookup_insert_eq].
    + destruct (async_setup_entry_missing_credential entry hass) as [k Hk];
        [by right | congruence].
    + destruct (async_setup_entry_missing_credential entry hass) as [k Hk];
        [by left | congruence].
Qed.

End aladdin_connect_properties.

(** The theorems of this section at the sample entry. *)

Lemma login_falsy_raises_auth_failed_witness :
  aladdin_connect.async_setup_entry "aladdin_connect" "username" "password"
    samples.login_rejects samples.entry samples.hass
  = (Raise (new_exc ConfigEntryAuthFailed ["Incorrect Password"]),
     samples.hass)
  ∧ exc_type (new_exc ConfigEntryAuthFailed ["Incorrect Password"])
    ≠ ConfigEntryNotReady.
Proof.
  apply (login_falsy_raises_auth_failed "aladdin_connect" "username"
           "password" samples.login_rejects samples.entry samples.hass
           "user@example.org" "secret"); reflexivity.
Defined.

Lemma login_client_error_raises_not_ready_witness :
  aladdin_connect.async_setup_entry "aladdin_connect" "username" "password"
    samples.login_value_error samples.entry samples.hass
  = (Raise {| exc_type := ConfigEntryNotReady; exc_args := [];
              exc_cause := Some (new_exc ValueError ["bad reply"]) |},
     samples.hass).
Proof.
  apply (login_client_error_raises_not_ready "aladdin_connect" "username"
           "password" samples.login_value_error samples.entry samples.hass
           "user@example.org" "secret"); reflexivity.
Defined.

Lemma hass_data_written_only_after_login_witness :
  aladdin_connect.hass_data
    (aladdin_connect.async_setup_entry "aladdin_connect" "username"
       "password" samples.login_rejects samples.entry samples.hass).2
  = aladdin_connect.hass_data samples.hass.
Proof.
  apply (proj1 (hass_data_written_only_after_login "aladdin_connect"
                  "username" "password" samples.login_rejects samples.entry
                  samples.hass _ _ eq_refl)
           (new_exc ConfigEntryAuthFailed ["Incorrect Password"]));
    [reflexivity | left; reflexivity].
Defined.

(** ** aemet weather entity *)

Section aemet_properties.

Import aemet.

Variable V : Type.
Variables ATTR_API_CONDITION ATTR_API_HUMIDITY ATTR_API_PRESSURE
  ATTR_API_TEMPERATURE ATTR_API_WIND_BEARING ATTR_API_WIND_SPEED : string.
Variable FORECAST_MODE_ATTR_API : gmap string string.
Variable FORECAST_MODE_DAILY : string.

Implicit Types (c : WeatherUpdateCoordinator V) (self : AemetWeather).

(** Subscripting the snapshot gives the stored value, or [KeyError]; the
    coordinator is only read. *)
Lemma coordinator_getitem_Some c key v :
  coordinator_data c !! key = Some v →
  coordinator_getitem V key c = (Return v, c).
Proof.
  intros Hk. unfold coordinator_getitem, bind, get, getitem. cbn.
  by rewrite Hk.
Qed.

Lemma coordinator_getitem_None c key :
  coordinator_data c !! key = None →
  coordinator_getitem V key c = (Raise (new_exc KeyError [key]), c).
Proof.
  intros Hk. unfold coordinator_getitem, bind, get, getitem. cbn.
  by rewrite Hk.
Qed.

Lemma coordinator_getitem_frame c key :
  (coordinator_getitem V key c).2 = c.
Proof.
  destruct (coordinator_data c !! key) as [v|] eqn:Hk.
  - by rewrite (coordinator_getitem_Some _ _ _ Hk).
  - by rewrite (coordinator_getitem_None _ _ Hk).
Qed.

Lemma forecast_unfold self c key :
  FORECAST_MODE_ATTR_API !! _forecast_mode self = Some key →
  forecast V FORECAST_MODE_ATTR_API self c = coordinator_getitem V key c.
Proof. intros Hm. unfold forecast, bind, getitem. by rewrite Hm. Qed.

(** C6: on a snapshot that holds a value under the fixed key of a
    property, the property returns exactly that value and leaves the
    snapshot as it is.  The key of [forecast] is the one
    [FORECAST_MODE_ATTR_API] gives for the forecast mode of the
    entity. *)
Theorem weather_properties_return_snapshot_fields self c :
  (∀ v, coordinator_data c !! ATTR_API_CONDITION = Some v →
        condition V ATTR_API_CONDITION self c = (Return v, c))
  ∧ (∀ v, coordinator_data c !! ATTR_API_HUMIDITY = Some v →
          humidity V ATTR_API_HUMIDITY self c = (Return v, c))
  ∧ (∀ v, coordinator_data c !! ATTR_API_PRESSURE = Some v →
          pressure V ATTR_API_PRESSURE self c = (Return v, c))
  ∧ (∀ v, coordinator_data c !! ATTR_API_TEMPERATURE = Some v →
          temperature V ATTR_API_TEMPERATURE self c = (Return v, c))
  ∧ (∀ v, coordinator_data c !! ATTR_API_WIND_BEARING = Some v →
          wind_bearing V ATTR_API_WIND_BEARING self c = (Return v, c))
  ∧ (∀ v, coordinator_data c !! ATTR_API_WIND_SPEED = Some v →
          wind_speed V ATTR_API_WIND_SPEED self c = (Return v, c))
  ∧ (∀ key v, FORECAST_MODE_ATTR_API !! _forecast_mode self = Some key →
              coordinator_data c !! key = Some v →
              forecast V FORECAST_MODE_ATTR_API self c = (Return v, c)).
Proof.
  repeat split; intros;
    try (by apply coordinator_getitem_Some).
  erewrite forecast_unfold by eassumption.
  by apply coordinator_getitem_Some.
Qed.

(** C8: on a snapshot that lacks the fixed key of a property, the
    property raises [KeyError] for that key: nothing catches it and no
    fallback value is returned.  The snapshot is left as it is. *)
Theorem weather_properties_raise_on_missing_key self c :
  (coordinator_data c !! ATTR_API_CONDITION = None →
   condition V ATTR_API_CONDITION self c
   = (Raise (new_exc KeyError [ATTR_API_CONDITION]), c))
  ∧ (coordinator_data c !! ATTR_API_HUMIDITY = None →
     humidity V ATTR_API_HUMIDITY self c
     = (Raise (new_exc KeyError [ATTR_API_HUMIDITY]), c))
  ∧ (coordinator_data c !! ATTR_API_PRESSURE = None →
     pressure V ATTR_API_PRESSURE self c
     = (Raise (new_exc KeyError [ATTR_API_PRESSURE]), c))
  ∧ (coordinator_data c !! ATTR_API_TEMPERATURE = None →
     temperature V ATTR_API_TEMPERATURE self c
     = (Raise (new_exc KeyError [ATTR_API_TEMPERATURE]), c))
  ∧ (coordinator_data c !! ATTR_API_WIND_BEARING = None →
     wind_bearing V ATTR_API_WIND_BEARING self c
     = (Raise (new_exc KeyError [ATTR_API_WIND_BEARING]), c))
  ∧ (coordinator_data c !! ATTR_API_WIND_SPEED = None →
     wind_speed V ATTR_API_WIND_SPEED self c
     = (Raise (new_exc KeyError [ATTR_API_WIND_SPEED]), c))
  ∧ (∀ key, FORECAST_MODE_ATTR_API !! _forecast_mode self = Some key →
            coordinator_data c !! key = None →
            forecast V FORECAST_MODE_ATTR_API self c
            = (Raise (new_exc KeyError [key]), c)).
Proof.
  repeat split; intros;
    try (by apply coordinator_getitem_None).
  erewrite forecast_unfold by eassumption.
  by apply coordinator_getitem_None.
Qed.

(** A forecast mode without an entry in [FORECAST_MODE_ATTR_API] makes
    [forecast] raise [KeyError] too, whatever the snapshot holds. *)
Lemma forecast_unknown_mode self c :
  FORECAST_MODE_ATTR_API !! _forecast_mode self = None →
  forecast V FORECAST_MODE_ATTR_API self c
  = (Raise (new_exc KeyError [_forecast_mode self]), c).
Proof. intros Hm. unfold forecast, bind, getitem. by rewrite Hm. Qed.

(** C10: the entity constructed for a forecast mode keeps that mode and
    is enabled by default in the registry if and only if the mode is
    the daily forecast mode. *)
Theorem enabled_by_default_iff_daily (name unique_id mode : string) :
  _forecast_mode
    (AemetWeather__init__ FORECAST_MODE_DAILY name unique_id mode) = mode
  ∧ (_attr_entity_registry_enabled_default
       (AemetWeather__init__ FORECAST_MODE_DAILY name unique_id mode) = true
     ↔ mode = FORECAST_MODE_DAILY)
  ∧ (_attr_entity_registry_enabled_default
       (AemetWeather__init__ FORECAST_MODE_DAILY name unique_id mode) = false
     ↔ mode ≠ FORECAST_MODE_DAILY).
Proof.
  cbn. split; [reflexivity |]. split.
  - apply bool_decide_eq_true.
  - apply bool_decide_eq_false.
Qed.

(** The entities [async_setup_entry] builds, one per forecast mode in
    order, follow the same rule. *)
Lemma build_entities_enabled_default {S} ENTRY_NAME domain_data
    config_entry (modes : list string) (s s' : S) entities :
  build_entities FORECAST_MODE_DAILY ENTRY_NAME domain_data config_entry
    modes s = (Return entities, s') →
  s' = s
  ∧ Forall2 (λ mode self,
       _forecast_mode self = mode
       ∧ _attr_entity_registry_enabled_default self
         = bool_decide (mode = FORECAST_MODE_DAILY)) modes entities.
Proof.
  revert entities. induction modes as [|mode rest IH]; intros entities.
  - cbn. intros [= <- <-]. split; [reflexivity | constructor].
  - cbn. unfold bind, domain_getitem.
    destruct (entry_name domain_data) as [n|]; cbn; [| discriminate].
    destruct (build_entities _ _ _ _ rest s) as [[ents|e] s1] eqn:Hrest;
      [| discriminate].
    intros [= <- <-]. destruct (IH ents eq_refl) as [-> Hall].
    split; [reflexivity |]. by constructor.
Qed.

End aemet_properties.

(** The theorems of this section at the sample snapshots. *)

Lemma weather_properties_return_snapshot_fields_witness :
  let self := samples.weather_hourly in
  let c := samples.weather_snapshot in
  aemet.condition string "condition" self c = (Return "sunny", c)
  ∧ aemet.humidity string "humidity" self c = (Return "55", c)
  ∧ aemet.pressure string "pressure" self c = (Return "1013.2", c)
  ∧ aemet.temperature string "temperature" self c = (Return "21.5", c)
  ∧ aemet.wind_bearing string "wind-bearing" self c = (Return "270", c)
  ∧ aemet.wind_speed string "wind-speed" self c = (Return "12.0", c)
  ∧ aemet.forecast string samples.FORECAST_MODE_ATTR_API self c
    = (Return "[hourly]", c).
Proof.
  intros self c.
  destruct (weather_properties_return_snapshot_fields string
              "condition" "humidity" "pressure" "temperature" "wind-bearing"
              "wind-speed" samples.FORECAST_MODE_ATTR_API self c)
    as (H1 & H2 & H3 & H4 & H5 & H6 & H7).
  exact (conj (H1 _ eq_refl) (conj (H2 _ eq_refl) (conj (H3 _ eq_refl)
           (conj (H4 _ eq_refl) (conj (H5 _ eq_refl) (conj (H6 _ eq_refl)
              (H7 "forecast-hourly" _ eq_refl eq_refl))))))).
Defined.

Lemma weather_properties_raise_on_missing_key_witness :
  let self := samples.weather_hourly in
  let c := samples.weather_snapshot_empty in
  aemet.condition string "condition" self c
  = (Raise (new_exc KeyError ["condition"]), c)
  ∧ aemet.humidity string "humidity" self c
    = (Raise (new_exc KeyError ["humidity"]), c)
  ∧ aemet.pressure string "pressure" self c
    = (Raise (new_exc KeyError ["pressure"]), c)
  ∧ aemet.temperature string "temperature" self c
    = (Raise (new_exc KeyError ["temperature"]), c)
  ∧ aemet.wind_bearing string "wind-bearing" self c
    = (Raise (new_exc KeyError ["wind-bearing"]), c)
  ∧ aemet.wind_speed string "wind-speed" self c
    = (Raise (new_exc KeyError ["wind-speed"]), c)
  ∧ aemet.forecast string samples.FORECAST_MODE_ATTR_API self c
    = (Raise (new_exc KeyError ["forecast-hourly"]), c).
Proof.
  intros self c.
  destruct (weather_properties_raise_on_missing_key string
              "condition" "humidity" "pressure" "temperature" "wind-bearing"
              "wind-speed" samples.FORECAST_MODE_ATTR_API self c)
    as (H1 & H2 & H3 & H4 & H5 & H6 & H7).
  exact (conj (H1 eq_refl) (conj (H2 eq_refl) (conj (H3 eq_refl)
           (conj (H4 eq_refl) (conj (H5 eq_refl) (conj (H6 eq_refl)
              (H7 "forecast-hourly" eq_refl eq_refl))))))).
Defined.

(** ** synology_dsm camera entity *)

Section camera_properties.

Import synology_dsm.

Variable surveillance_station : SynoSurveillanceStation.t.

Implicit Types (w : World) (self : SynoDSMCamera).

(** The three classes [camera_image] catches. *)
Abbreviation image_guard :=
  [SynologyDSMAPIErrorException; SynologyDSMRequestException;
   ConnectionRefusedError].

Lemma cameras_getitem_Some w camera_id cam :
  snapshot_camera w camera_id = Some cam →
  cameras_getitem camera_id w = (Return cam, w).
Proof.
  unfold snapshot_camera, cameras_getitem, bind, get, getitem. cbn.
  destruct (coordinator_data (coordinator w) !! "cameras") as [cams|];
    [| discriminate].
  cbn. by intros ->.
Qed.

Lemma cameras_getitem_None w camera_id :
  snapshot_camera w camera_id = None →
  ∃ k, cameras_getitem camera_id w = (Raise (new_exc KeyError [k]), w).
Proof.
  unfold snapshot_camera, cameras_getitem, bind, get, getitem. cbn.
  destruct (coordinator_data (coordinator w) !! "cameras") as [cams|]; cbn.
  - intros ->. eauto.
  - intros _. eauto.
Qed.

(** [available] on a camera of the snapshot, and on a missing one. *)
Lemma available_Some self w cam :
  snapshot_camera w (key (entity_description self)) = Some cam →
  available self w
  = (Return (SynoCamera.is_enabled cam
             && last_update_success (coordinator w)), w).
Proof.
  intros Hcam. unfold available, camera_data, bind.
  rewrite (cameras_getitem_Some _ _ _ Hcam).
  by destruct (SynoCamera.is_enabled cam).
Qed.

Lemma available_None self w :
  snapshot_camera w (key (entity_description self)) = None →
  ∃ k, available self w = (Raise (new_exc KeyError [k]), w).
Proof.
  intros Hcam. unfold available, camera_data, bind.
  destruct (cameras_getitem_None _ _ Hcam) as [k ->]. eauto.
Qed.

(** C2: for a camera of the snapshot, [available] is the conjunction of
    the camera's [is_enabled] flag and the coordinator's
    [last_update_success]; so [available] is true if and only if the
    snapshot has the camera with [is_enabled] true and the last poll
    succeeded.  The world is only read. *)
Theorem available_iff_enabled_and_last_update_success self w :
  (∀ cam, snapshot_camera w (key (entity_description self)) = Some cam →
          available self w
          = (Return (SynoCamera.is_enabled cam
                     && last_update_success (coordinator w)), w))
  ∧ ((available self w).1 = Return true
     ↔ ∃ cam, snapshot_camera w (key (entity_description self)) = Some cam
              ∧ SynoCamera.is_enabled cam = true
              ∧ last_update_success (coordinator w) = true).
Proof.
  split; [intros cam; apply available_Some |].
  destruct (snapshot_camera w (key (entity_description self)))
    as [cam|] eqn:Hcam.
  - rewrite (available_Some _ _ _ Hcam). cbn. split.
    + intros [= Hb]. apply andb_true_iff in Hb. eauto.
    + intros (cam' & [= <-] & -> & ->). reflexivity.
  - destruct (available_None _ _ Hcam) as [k ->]. cbn. split.
    + discriminate.
    + intros (cam' & Hc & _). discriminate Hc.
Qed.

(** [available] gives a truth value only for a camera of the
    snapshot, and never changes the world. *)
Lemma available_Return_inv self w b :
  (available self w).1 = Return b →
  available self w = (Return b, w)
  ∧ ∃ cam, snapshot_camera w (key (entity_description self)) = Some cam.
Proof.
  destruct (snapshot_camera w (key (entity_description self)))
    as [cam|] eqn:Hcam.
  - rewrite (available_Some _ _ _ Hcam). cbn. intros [= <-]. eauto.
  - destruct (available_None _ _ Hcam) as [k ->]. discriminate.
Qed.

(** The run of [camera_image] on an available camera, by what the
    vendor call does. *)
Lemma camera_image_available self w :
  (available self w).1 = Return true →
  camera_image surveillance_station self w =
    let w1 := with_api_calls
                (λ l, (l ++ [GetCameraImage (key (entity_description self))
                                (snapshot_quality self)])%list) w in
    match SynoSurveillanceStation.get_camera_image surveillance_station
            (key (entity_description self)) (snapshot_quality self) with
    | Return img => (Return (Some img), w1)
    | Raise e =>
        if isinstance e image_guard then (Return None, w1)
        else (Raise e, w1)
    end.
Proof.
  intros Hav. destruct (available_Return_inv _ _ _ Hav) as [Hrun [cam Hcam]].
  unfold camera_image, bind, camera_data, try_except, api_call, modify,
    lift.
  rewrite (cameras_getitem_Some _ _ _ Hcam), Hrun.
  cbn -[isinstance cameras_getitem].
  destruct (SynoSurveillanceStation.get_camera_image _ _ _) as [img|e];
    [reflexivity |].
  destruct (isinstance e _); [| reflexivity].
  by rewrite (cameras_getitem_Some (with_api_calls _ w) _ cam Hcam).
Qed.

Lemma camera_image_unavailable self w :
  (available self w).1 = Return false →
  camera_image surveillance_station self w = (Return None, w).
Proof.
  intros Hav. destruct (available_Return_inv _ _ _ Hav) as [Hrun [cam Hcam]].
  unfold camera_image, bind, camera_data.
  by rewrite (cameras_getitem_Some _ _ _ Hcam), Hrun.
Qed.

(** C1: [camera_image] returns [None], without calling the vendor, when
    [available] is false; it returns [None] when the vendor call raises
    [SynologyDSMAPIErrorException], [SynologyDSMRequestException] or
    [ConnectionRefusedError]; and when the vendor call returns, it
    returns exactly the bytes of the vendor. *)
Theorem camera_image_none_or_vendor_bytes self w :
  ((available self w).1 = Return false →
   camera_image surveillance_station self w = (Return None, w))
  ∧ (∀ e, (available self w).1 = Return true →
          SynoSurveillanceStation.get_camera_image surveillance_station
            (key (entity_description self)) (snapshot_quality self)
          = Raise e →
          isinstance e image_guard = true →
          (camera_image surveillance_station self w).1 = Return None)
  ∧ (∀ img, (available self w).1 = Return true →
            SynoSurveillanceStation.get_camera_image surveillance_station
              (key (entity_description self)) (snapshot_quality self)
            = Return img →
            (camera_image surveillance_station self w).1
            = Return (Some img)).
Proof.
  split; [apply camera_image_unavailable | split].
  - intros e Hav Hraise He.
    by rewrite (camera_image_available _ _ Hav), Hraise, He.
  - intros img Hav Hret.
    by rewrite (camera_image_available _ _ Hav), Hret.
Qed.

(** The motion-detection calls have no handler: whatever the vendor call
    gives is what the method gives. *)
Lemma enable_motion_detection_run self w cam :
  snapshot_camera w (key (entity_description self)) = Some cam →
  enable_motion_detection surveillance_station self w
  = (SynoSurveillanceStation.enable_motion_detection surveillance_station
       (key (entity_description self)),
     with_api_calls
       (λ l, (l ++ [EnableMotionDetection
                      (key (entity_description self))])%list) w).
Proof.
  intros Hcam.
  unfold enable_motion_detection, bind, camera_data, api_call, modify, lift.
  rewrite (cameras_getitem_Some _ _ _ Hcam). cbn.
  by destruct (SynoSurveillanceStation.enable_motion_detection _ _).
Qed.

Lemma disable_motion_detection_run self w cam :
  snapshot_camera w (key (entity_description self)) = Some cam →
  disable_motion_detection surveillance_station self w
  = (SynoSurveillanceStation.disable_motion_detection surveillance_station
       (key (entity_description self)),
     with_api_calls
       (λ l, (l ++ [DisableMotionDetection
                      (key (entity_description self))])%list) w).
Proof.
  intros Hcam.
  unfold disable_motion_detection, bind, camera_data, api_call, modify,
    lift.
  rewrite (cameras_getitem_Some _ _ _ Hcam). cbn.
  by destruct (SynoSurveillanceStation.disable_motion_detection _ _).
Qed.

End camera_properties.

(** The theorems of this section at the sample cameras. *)

Lemma available_iff_enabled_and_last_update_success_witness :
  synology_dsm.available samples.entity1 samples.world
  = (Return true, samples.world)
  ∧ synology_dsm.available samples.entity2 samples.world
    = (Return false, samples.world).
Proof.
  split.
  - apply (proj1 (available_iff_enabled_and_last_update_success
                    samples.entity1 samples.world) samples.camera1).
    reflexivity.
  - apply (proj1 (available_iff_enabled_and_last_update_success
                    samples.entity2 samples.world) samples.camera2).
    reflexivity.
Defined.

Lemma camera_image_none_or_vendor_bytes_witness :
  synology_dsm.camera_image samples.station_up samples.entity2 samples.world
  = (Return None, samples.world)
  ∧ (synology_dsm.camera_image samples.station_down samples.entity1
       samples.world).1 = Return None
  ∧ (synology_dsm.camera_image samples.station_up samples.entity1
       samples.world).1 = Return (Some samples.jpeg).
Proof.
  split; [| split].
  - apply (proj1 (camera_image_none_or_vendor_bytes samples.station_up
                    samples.entity2 samples.world)).
    reflexivity.
  - apply (proj1 (proj2 (camera_image_none_or_vendor_bytes
                           samples.station_down samples.entity1
                           samples.world)) samples.request_failed);
      reflexivity.
  - apply (proj2 (proj2 (camera_image_none_or_vendor_bytes
                           samples.station_up samples.entity1
                           samples.world)) samples.jpeg);
      reflexivity.
Defined.

(** ** Which exceptions cross the adapter boundary *)

(** C5, as the code has it: at setup, an exception of the vendor login is
    turned into [ConfigEntryNotReady] when it is an instance of
    [TypeError], [KeyError], [NameError] or [ValueError], and otherwise
    propagates as it is; in [camera_image] on an available camera, an
    exception of the vendor call is turned into a [None] result when it
    is an instance of [SynologyDSMAPIErrorException],
    [SynologyDSMRequestException] or [ConnectionRefusedError], and
    otherwise propagates as it is; [enable_motion_detection] and
    [disable_motion_detection] have no handler, and every exception of
    their vendor call propagates as it is. *)
Theorem vendor_exceptions_converted_or_propagated
    (DOMAIN CONF_USERNAME CONF_PASSWORD : string)
    (login : aladdin_connect.AladdinConnectClient → outcome bool)
    (entry : ConfigEntry) (hass : aladdin_connect.HomeAssistant)
    (station : synology_dsm.SynoSurveillanceStation.t)
    (self : synology_dsm.SynoDSMCamera) (w : synology_dsm.World)
    (e : exc) :
  (∀ username password,
     data entry !! CONF_USERNAME = Some username →
     data entry !! CONF_PASSWORD = Some password →
     login {| aladdin_connect.acc_username := username;
              aladdin_connect.acc_password := password |} = Raise e →
     (aladdin_connect.async_setup_entry DOMAIN CONF_USERNAME CONF_PASSWORD
        login entry hass).1
     = if isinstance e [TypeError; KeyError; NameError; ValueError]
       then Raise {| exc_type := ConfigEntryNotReady; exc_args := [];
                     exc_cause := Some e |}
       else Raise e)
  ∧ ((synology_dsm.available self w).1 = Return true →
     synology_dsm.SynoSurveillanceStation.get_camera_image station
       (synology_dsm.key (synology_dsm.entity_description self))
       (synology_dsm.snapshot_quality self) = Raise e →
     (synology_dsm.camera_image station self w).1
     = if isinstance e [SynologyDSMAPIErrorException;
                        SynologyDSMRequestException; ConnectionRefusedError]
       then Return None
       else Raise e)
  ∧ (∀ cam,
       synology_dsm.snapshot_camera w
         (synology_dsm.key (synology_dsm.entity_description self))
       = Some cam →
       synology_dsm.SynoSurveillanceStation.enable_motion_detection station
         (synology_dsm.key (synology_dsm.entity_description self))
       = Raise e →
       (synology_dsm.enable_motion_detection station self w).1 = Raise e)
  ∧ (∀ cam,
       synology_dsm.snapshot_camera w
         (synology_dsm.key (synology_dsm.entity_description self))
       = Some cam →
       synology_dsm.SynoSurveillanceStation.disable_motion_detection station
         (synology_dsm.key (synology_dsm.entity_description self))
       = Raise e →
       (synology_dsm.disable_motion_detection station self w).1 = Raise e).
Proof.
  split; [| split; [| split]].
  - intros u p Hu Hp Hlogin.
    rewrite (async_setup_entry_cases _ _ _ _ _ _ _ _ Hu Hp), Hlogin.
    by destruct (isinstance e _).
  - intros Hav Hraise.
    rewrite (camera_image_available _ _ _ Hav), Hraise. cbn -[isinstance].
    by destruct (isinstance e _).
  - intros cam Hcam Hraise.
    by rewrite (enable_motion_detection_run _ _ _ _ Hcam), Hraise.
  - intros cam Hcam Hraise.
    by rewrite (disable_motion_detection_run _ _ _ _ Hcam), Hraise.
Qed.

Lemma vendor_exceptions_converted_or_propagated_witness :
  (aladdin_connect.async_setup_entry "aladdin_connect" "username" "password"
     samples.login_value_error samples.entry samples.hass).1
  = Raise {| exc_type := ConfigEntryNotReady; exc_args := [];
             exc_cause := Some (new_exc ValueError ["bad reply"]) |}
  ∧ (synology_dsm.camera_image samples.station_down samples.entity1
       samples.world).1 = Return None
  ∧ (synology_dsm.enable_motion_detection samples.station_down
       samples.entity1 samples.world).1 = Raise samples.request_failed
  ∧ (synology_dsm.disable_motion_detection samples.station_down
       samples.entity1 samples.world).1 = Raise samples.request_failed.
Proof.
  split; [| split; [| split]].
  - apply (proj1 (vendor_exceptions_converted_or_propagated
                    "aladdin_connect" "username" "password"
                    samples.login_value_error samples.entry samples.hass
                    samples.station_down samples.entity1 samples.world
                    (new_exc ValueError ["bad reply"]))
             "user@example.org" "secret"); reflexivity.
  - apply (proj1 (proj2 (vendor_exceptions_converted_or_propagated
                    "aladdin_connect" "username" "password"
                    samples.login_value_error samples.entry samples.hass
                    samples.station_down samples.entity1 samples.world
                    samples.request_failed))); reflexivity.
  - apply (proj1 (proj2 (proj2 (vendor_exceptions_converted_or_propagated
                    "aladdin_connect" "username" "password"
                    samples.login_value_error samples.entry samples.hass
                    samples.station_down samples.entity1 samples.world
                    samples.request_failed))) samples.camera1); reflexivity.
  - apply (proj2 (proj2 (proj2 (vendor_exceptions_converted_or_propagated
                    "aladdin_connect" "username" "password"
                    samples.login_value_error samples.entry samples.hass
                    samples.station_down samples.entity1 samples.world
                    samples.request_failed))) samples.camera1); reflexivity.
Defined.

(** C5 as stated fails.  With a station whose requests fail,
    [enable_motion_detection] lets the vendor's
    [SynologyDSMRequestException] through: the outcome is that very
    exception, neither a result nor [ConfigEntryNotReady].  Likewise a
    refused connection during the login at setup propagates as
    [ConnectionRefusedError]. *)
Lemma motion_detection_propagates_vendor_exception :
  synology_dsm.SynoSurveillanceStation.enable_motion_detection
    samples.station_down "1" = Raise samples.request_failed
  ∧ (synology_dsm.enable_motion_detection samples.station_down
       samples.entity1 samples.world).1 = Raise samples.request_failed
  ∧ exc_type samples.request_failed = SynologyDSMRequestException
  ∧ exc_type samples.request_failed ≠ ConfigEntryNotReady
  ∧ (aladdin_connect.async_setup_entry "aladdin_connect" "username"
       "password" samples.login_refused samples.entry samples.hass).1
    = Raise (new_exc ConnectionRefusedError []).
Proof.
  split; [reflexivity |]. split; [reflexivity |]. split; [reflexivity |].
  split; [discriminate | reflexivity].
Qed.

(** ** Signal names *)

Lemma append_nil_l (t : string) : "" ++ t = t.
Proof. reflexivity. Qed.

Lemma append_cons (b : ascii) (s t : string) :
  String b s ++ t = String b (s ++ t).
Proof. reflexivity. Qed.

Lemma has_char_app a s t :
  has_char a (s ++ t) = has_char a s || has_char a t.
Proof.
  induction s as [|b s IH]; [reflexivity |].
  rewrite append_cons. cbn. by rewrite IH, orb_assoc.
Qed.

Lemma has_char_sep a s t : has_char a (s ++ String a t) = true.
Proof.
  rewrite has_char_app. cbn.
  rewrite bool_decide_eq_true_2 by done. apply orb_true_r.
Qed.

Lemma append_inv_head (s t u : string) : s ++ t = s ++ u → t = u.
Proof.
  induction s as [|b s IH]; [done |].
  rewrite !append_cons. intros [= H]. auto.
Qed.

(** Two strings cut at a separator that their last parts do not contain
    are cut at the same place. *)
Lemma append_sep_inj (a : ascii) (s1 s2 t1 t2 : string) :
  has_char a t1 = false → has_char a t2 = false →
  s1 ++ String a t1 = s2 ++ String a t2 → s1 = s2 ∧ t1 = t2.
Proof.
  intros Ht1 Ht2. revert s2.
  induction s1 as [|b s1 IH]; intros [|c s2];
    rewrite ?append_nil_l, ?append_cons; intros Heq.
  - by injection Heq as ->.
  - injection Heq as <- ->. by rewrite has_char_sep in Ht1.
  - injection Heq as -> <-. by rewrite has_char_sep in Ht2.
  - injection Heq as -> Htl. by destruct (IH _ Htl) as [-> ->].
Qed.

(** The decimal rendering of a number has no underscore. *)
Lemma pretty_N_go_no_underscore (x : N) (s : string) :
  has_char "_" s = false → has_char "_" (pretty_N_go x s) = false.
Proof.
  revert s. induction (N.lt_wf_0 x) as [x _ IH]; intros s Hs.
  destruct (decide (x = 0)%N) as [-> | Hx].
  - by rewrite pretty_N_go_0.
  - rewrite pretty_N_go_step by lia.
    apply IH; [apply N.div_lt; lia |].
    cbn. rewrite Hs, orb_false_r. apply bool_decide_eq_false.
    unfold pretty_N_char. by repeat case_match.
Qed.

Lemma pretty_N_no_underscore (x : N) : has_char "_" (pretty x) = false.
Proof.
  unfold pretty, pretty_N. case_decide; [reflexivity |].
  by apply pretty_N_go_no_underscore.
Qed.

Lemma pretty_Z_no_underscore (x : Z) : has_char "_" (pretty x) = false.
Proof.
  unfold pretty, pretty_Z. destruct x as [|p|p]; [reflexivity | |].
  - apply pretty_N_no_underscore.
  - change ("-" +:+ pretty p) with (String "-" (pretty p)). cbn.
    apply (pretty_N_no_underscore (Npos p)).
Qed.

(** The signal name determines the config entry id and the camera id. *)
Lemma signal_name_inj SIGNAL (entry entry' : string) (camera camera' : Z) :
  synology_dsm.signal_name SIGNAL entry camera
  = synology_dsm.signal_name SIGNAL entry' camera' →
  entry = entry' ∧ camera = camera'.
Proof.
  unfold synology_dsm.signal_name. intros Heq.
  apply append_inv_head in Heq.
  rewrite !(append_cons "_" ""), !append_nil_l in Heq.
  injection Heq as Heq.
  apply append_sep_inj in Heq as [-> Hp];
    [| apply pretty_Z_no_underscore | apply pretty_Z_no_underscore].
  split; [reflexivity |]. by apply (inj pretty).
Qed.

(** ** Delivery of the stream-source signal *)

Section dispatch_properties.

Import synology_dsm.

Variable SIGNAL : string.

Implicit Types (w : World) (ent : SynoDSMCamera) (R : nat → Prop).

Lemma update_source_idemp url (x : option Stream) :
  update_source url <$> (update_source url <$> x) = update_source url <$> x.
Proof. by destruct x. Qed.

Lemma streams_updated_refl url R w : streams_updated url R w w.
Proof. unfold streams_updated. repeat split. by left. Qed.

Lemma streams_updated_trans url R w w1 w2 :
  streams_updated url R w w1 → streams_updated url R w1 w2 →
  streams_updated url R w w2.
Proof.
  intros (Hc1 & He1 & Hd1 & Ha1 & Hs1) (Hc2 & He2 & Hd2 & Ha2 & Hs2).
  unfold streams_updated. rewrite Hc2, He2, Hd2, Ha2.
  repeat (split; [done |]).
  intros r. destruct (Hs2 r) as [-> | [HR ->]]; [apply Hs1 |].
  right. split; [done |].
  destruct (Hs1 r) as [-> | [_ ->]]; [done | apply update_source_idemp].
Qed.

Lemma streams_updated_weaken url R R' w w' :
  (∀ r, R r → R' r) →
  streams_updated url R w w' → streams_updated url R' w w'.
Proof.
  intros HR (Hc & He & Hd & Ha & Hs). repeat (split; [done |]).
  intros r. destruct (Hs r) as [? | [? ?]]; [by left | right; auto].
Qed.

(** The run of the callback of one entity. *)
Lemma _handle_signal_run ent url w :
  _handle_signal ent url w =
    match stream ent with
    | None => (Return tt, w)
    | Some r =>
        match cameras_getitem (key (entity_description ent)) w with
        | (Return _, _) =>
            (Return tt, with_streams (alter (update_source url) r) w)
        | (Raise e, _) => (Raise e, w)
        end
    end.
Proof.
  unfold _handle_signal, camera_data, bind.
  destruct (stream ent) as [r|]; [| reflexivity].
  destruct (snapshot_camera w (key (entity_description ent)))
    as [cam|] eqn:Hcam.
  - by rewrite (cameras_getitem_Some _ _ _ Hcam).
  - by destruct (cameras_getitem_None _ _ Hcam) as [k ->].
Qed.

Lemma _handle_signal_updated ent url w o w' :
  _handle_signal ent url w = (o, w') →
  streams_updated url (λ r, stream ent = Some r) w w'
  ∧ (o = Return tt → ∀ r, stream ent = Some r →
     streams w' !! r = update_source url <$> streams w !! r).
Proof.
  rewrite _handle_signal_run.
  destruct (stream ent) as [r|].
  - destruct (cameras_getitem _ w) as [[cam|e] w1].
    + intros [= <- <-]. split.
      * repeat (split; [done |]). intros r'. cbn.
        rewrite lookup_alter. case_decide as Hr; [subst; by right | by left].
      * intros _ r' [= <-]. cbn. apply lookup_alter_eq.
    + intros [= <- <-]. split; [apply streams_updated_refl | discriminate].
  - intros [= <- <-]. split; [apply streams_updated_refl | discriminate].
Qed.

(** Delivery to a list of callbacks touches only streams of their
    entities, and, when no callback raises, all of them. *)
Lemma call_targets_updated targets url w o w' :
  call_targets targets url w = (o, w') →
  streams_updated url
    (λ r, ∃ i ent, i ∈ targets ∧ entities w !! i = Some ent
                   ∧ stream ent = Some r) w w'
  ∧ (o = Return tt → ∀ i ent r,
       i ∈ targets → entities w !! i = Some ent → stream ent = Some r →
       streams w' !! r = update_source url <$> streams w !! r).
Proof.
  revert w. induction targets as [|i rest IH]; intros w.
  - cbn. intros [= <- <-]. split; [apply streams_updated_refl |].
    intros _ i ent r Hi. by apply elem_of_nil in Hi.
  - cbn. unfold bind.
    destruct (match entities w !! i with
              | Some ent => _handle_signal ent url
              | None => ret tt
              end w) as [[[]|e] w1] eqn:Hstep.
    + (* the first callback returned *)
      intros Hrest. destruct (IH _ Hrest) as [Hupd2 Hall2].
      assert (streams_updated url
                (λ r, ∃ ent, entities w !! i = Some ent
                             ∧ stream ent = Some r) w w1
              ∧ ∀ ent r, entities w !! i = Some ent → stream ent = Some r →
                  streams w1 !! r = update_source url <$> streams w !! r)
        as [Hupd1 Hall1].
      { destruct (entities w !! i) as [ent|].
        - destruct (_handle_signal_updated _ _ _ _ _ Hstep) as [Hu Ha].
          split.
          + eapply streams_updated_weaken; [| exact Hu]. cbn. eauto.
          + intros ent' r [= <-]. by apply Ha.
        - injection Hstep as <-. split; [apply streams_updated_refl |].
          intros ent r Hent. discriminate Hent. }
      assert (entities w1 = entities w) as Hents by apply Hupd1.
      rewrite Hents in Hupd2, Hall2. split.
      * eapply streams_updated_trans.
        -- eapply streams_updated_weaken; [| exact Hupd1].
           intros r (ent & ? & ?). exists i, ent.
           split; [apply list_elem_of_here | done].
        -- eapply streams_updated_weaken; [| exact Hupd2].
           intros r (j & ent & ? & ? & ?). exists j, ent.
           split; [by apply list_elem_of_further | done].
      * intros Ho j ent r Hj Hent Hr.
        apply elem_of_cons in Hj as [-> | Hj].
        -- destruct Hupd2 as (_ & _ & _ & _ & Hs2).
           destruct (Hs2 r) as [-> | [_ ->]].
           ++ by eapply Hall1.
           ++ rewrite (Hall1 _ _ Hent Hr). apply update_source_idemp.
        -- rewrite (Hall2 Ho _ _ _ Hj Hent Hr).
           destruct Hupd1 as (_ & _ & _ & _ & Hs1).
           destruct (Hs1 r) as [-> | [_ ->]];
             [done | apply update_source_idemp].
    + (* the first callback raised *)
      intros [= <- <-].
      split; [| discriminate].
      destruct (entities w !! i) as [ent|] eqn:Hent; [| discriminate Hstep].
      destruct (_handle_signal_updated _ _ _ _ _ Hstep) as [Hu _].
      eapply streams_updated_weaken; [| exact Hu].
      intros r ?. exists i, ent. split; [apply list_elem_of_here | done].
Qed.

Lemma elem_of_targets_of signal (l : list (string * nat)) i :
  i ∈ targets_of signal l ↔ (signal, i) ∈ l.
Proof.
  unfold targets_of. rewrite list_elem_of_fmap. split.
  - intros ([sig j] & -> & Hin). apply list_elem_of_filter in Hin as [Hs Hin].
    cbn in Hs. by subst.
  - intros Hin. exists (signal, i). split; [done |].
    by apply list_elem_of_filter.
Qed.

(** Every connection is under the signal name of the listening key of
    its entity. *)
Lemma dispatcher_ok_elem w sig i :
  dispatcher_ok SIGNAL w = true → (sig, i) ∈ dispatcher w →
  ∃ entry camera, listening_key w i = Some (entry, camera)
                  ∧ sig = signal_name SIGNAL entry camera.
Proof.
  unfold dispatcher_ok. rewrite forallb_forall. intros Hall Hin.
  apply list_elem_of_In, Hall in Hin. unfold connection_ok in Hin. cbn in Hin.
  destruct (listening_key w i) as [[entry camera]|]; [| discriminate].
  apply bool_decide_eq_true in Hin. eauto.
Qed.

(** C7: dispatching the stream-source signal of camera [X] of config
    entry [entry] leaves every entity with the stream reference it had;
    a stream object that no entity listening for camera [X] of that
    entry holds is unchanged, so the stream of every other camera entity
    is unchanged; a stream object that changes gets the new URL; and when
    the delivery returns, the stream of every entity connected under that
    signal has the new URL. *)
Theorem stream_signal_updates_only_its_camera w entry X url o w' :
  dispatcher_ok SIGNAL w = true →
  async_dispatcher_send (signal_name SIGNAL entry X) url w = (o, w') →
  entities w' = entities w
  ∧ (∀ r, (∀ i ent, entities w !! i = Some ent → stream ent = Some r →
                    listening_key w i ≠ Some (entry, X)) →
          streams w' !! r = streams w !! r)
  ∧ (∀ j ent r, entities w !! j = Some ent → stream ent = Some r →
                listening_key w j ≠ Some (entry, X) →
                (∀ i ent', entities w !! i = Some ent' →
                           stream ent' = Some r → i = j) →
                streams w' !! r = streams w !! r)
  ∧ (∀ r, streams w' !! r = streams w !! r
          ∨ streams w' !! r = update_source url <$> streams w !! r)
  ∧ (o = Return tt → ∀ i ent r,
       (signal_name SIGNAL entry X, i) ∈ dispatcher w →
       entities w !! i = Some ent → stream ent = Some r →
       streams w' !! r = update_source url <$> streams w !! r).
Proof.
  intros Hok. unfold async_dispatcher_send, bind. cbn. intros Hrun.
  apply call_targets_updated in Hrun as [(_ & Hents & _ & _ & Hs) Hall].
  assert (∀ r, (∀ i ent, entities w !! i = Some ent → stream ent = Some r →
                         listening_key w i ≠ Some (entry, X)) →
               streams w' !! r = streams w !! r) as Hframe.
  { intros r Hother.
    destruct (Hs r) as [Hr | [(i & ent & Hi & Hent & Hst) _]]; [exact Hr |].
    apply elem_of_targets_of in Hi.
    destruct (dispatcher_ok_elem _ _ _ Hok Hi) as (e & c & Hkey & Hname).
    apply signal_name_inj in Hname as [<- <-].
    by destruct (Hother _ _ Hent Hst). }
  split; [exact Hents |]. split; [exact Hframe |]. split; [| split].
  - intros j ent r Hent Hst Hkey Hown. apply Hframe.
    intros i ent' Hent' Hst'. by rewrite (Hown _ _ Hent' Hst').
  - intros r. destruct (Hs r) as [? | [_ ?]]; auto.
  - intros Ho i ent r Hi. apply Hall; [exact Ho |].
    by apply elem_of_targets_of.
Qed.

(** The invariant [dispatcher_ok] is the code's own: it holds of an
    empty dispatcher and [_listen_source_updates] keeps it, connecting
    the entity under the signal name of its listening key. *)
Lemma dispatcher_ok_empty w : dispatcher w = [] → dispatcher_ok SIGNAL w = true.
Proof. unfold dispatcher_ok. by intros ->. Qed.

Lemma _listen_source_updates_ok w i o w' :
  dispatcher_ok SIGNAL w = true →
  _listen_source_updates SIGNAL i w = (o, w') →
  dispatcher_ok SIGNAL w' = true
  ∧ (o = Return tt → ∀ ent, entities w !! i = Some ent →
     ∃ entry camera,
       listening_key w i = Some (entry, camera)
       ∧ w' = with_dispatcher
                (λ l, (l ++ [(signal_name SIGNAL entry camera, i)])%list) w).
Proof.
  intros Hok. unfold _listen_source_updates, bind, get. cbn -[cameras_getitem].
  unfold listening_key.
  destruct (entities w !! i) as [ent|] eqn:Hent; cbn -[cameras_getitem].
  2:{ intros [= <- <-]. split; [exact Hok | discriminate]. }
  unfold bind, assert_some.
  destruct (platform ent) as [p|] eqn:Hp; cbn -[cameras_getitem].
  2:{ intros [= <- <-]. split; [exact Hok | discriminate]. }
  destruct (config_entry p) as [ce|] eqn:Hce; cbn -[cameras_getitem].
  2:{ intros [= <- <-]. split; [exact Hok | discriminate]. }
  unfold camera_data.
  destruct (snapshot_camera w (key (entity_description ent)))
    as [cam|] eqn:Hcam.
  2:{ destruct (cameras_getitem_None _ _ Hcam) as [k ->].
      intros [= <- <-]. split; [exact Hok | discriminate]. }
  rewrite (cameras_getitem_Some _ _ _ Hcam).
  unfold async_dispatcher_connect, modify. intros [= <- <-]. split.
  - unfold dispatcher_ok in *. cbn. rewrite forallb_app. cbn.
    apply andb_true_iff. split; [exact Hok |].
    unfold connection_ok, listening_key. cbn.
    rewrite Hent, Hp, Hce. unfold snapshot_camera in *. cbn. rewrite Hcam.
    by rewrite bool_decide_eq_true_2.
  - intros _ ent' [= <-]. eauto.
Qed.

End dispatch_properties.

(** C7 at the two sample cameras: the signal of camera 1 gives the stream
    of its entity the new URL and leaves the stream of camera 2 alone. *)
Lemma stream_signal_updates_only_its_camera_witness :
  let w' :=
    (synology_dsm.async_dispatcher_send
       (synology_dsm.signal_name samples.SIGNAL_CAMERA_SOURCE_CHANGED
          "0a1b2c" 1)
       "rtsp://nas/1b" samples.world_listening).2 in
  synology_dsm.streams w' !! 1%nat
  = Some {| synology_dsm.source := "rtsp://nas/2" |}
  ∧ synology_dsm.streams w' !! 0%nat
    = Some {| synology_dsm.source := "rtsp://nas/1b" |}.
Proof.
  intros w'.
  destruct (stream_signal_updates_only_its_camera
              samples.SIGNAL_CAMERA_SOURCE_CHANGED samples.world_listening
              "0a1b2c" 1 "rtsp://nas/1b" (Return tt) w' eq_refl eq_refl)
    as (_ & _ & Hother & _ & Hupd).
  split.
  - rewrite (Hother 1%nat samples.entity2 1%nat);
      [reflexivity | reflexivity | reflexivity | discriminate |].
    intros [|[|i]] ent Hent Hstream; [| reflexivity | discriminate Hent].
    injection Hent as <-. discriminate Hstream.
  - rewrite (Hupd eq_refl 0%nat samples.entity1 0%nat);
      [reflexivity | apply list_elem_of_here | reflexivity | reflexivity].
Defined.

(** * Further properties of the adapters *)

(** ** aladdin_connect: what a setup leaves in [hass] *)

Section aladdin_connect_setup.

Import aladdin_connect.

Variables DOMAIN CONF_USERNAME CONF_PASSWORD : string.
Variable login : AladdinConnectClient → outcome bool.

Implicit Types (entry : ConfigEntry) (hass : HomeAssistant).

(** The state a successful setup of [entry] with client [acc] gives. *)
Lemma setup_state_lookup entry acc hass :
  let hass' := async_setup_platforms entry PLATFORMS
                 (setdefault_setitem DOMAIN (entry_id entry) acc hass) in
  (∃ d', hass_data hass' !! DOMAIN = Some d'
         ∧ d' !! entry_id entry = Some acc
         ∧ ∀ k, k ≠ entry_id entry →
                d' !! k = hass_data hass !! DOMAIN ≫= (λ d, d !! k))
  ∧ (∀ dom, dom ≠ DOMAIN → hass_data hass' !! dom = hass_data hass !! dom)
  ∧ hass_forwarded hass'
    = (hass_forwarded hass ++ [(entry_id entry, [COVER])])%list.
Proof.
  cbn. split; [| split; [| reflexivity]].
  - eexists. split; [apply lookup_insert_eq |].
    split; [apply lookup_insert_eq |].
    intros k Hk. rewrite lookup_insert_ne by done.
    by destruct (hass_data hass !! DOMAIN).
  - intros dom Hdom. by rewrite lookup_insert_ne.
Qed.

(** X1: when both credentials are in the entry and the vendor login
    returns true, [async_setup_entry] returns [True]; the client built
    from these credentials is then under [hass.data[DOMAIN][entry_id]],
    every other entry of that domain and every other domain of
    [hass.data] is as before, and the cover platform has been forwarded
    for the entry. *)
Theorem setup_success_stores_client entry hass username password :
  data entry !! CONF_USERNAME = Some username →
  data entry !! CONF_PASSWORD = Some password →
  login {| acc_username := username; acc_password := password |}
    = Return true →
  ∃ hass' d',
    async_setup_entry DOMAIN CONF_USERNAME CONF_PASSWORD login entry hass
      = (Return true, hass')
    ∧ hass_data hass' !! DOMAIN = Some d'
    ∧ d' !! entry_id entry
      = Some {| acc_username := username; acc_password := password |}
    ∧ (∀ k, k ≠ entry_id entry →
            d' !! k = hass_data hass !! DOMAIN ≫= (λ d, d !! k))
    ∧ (∀ dom, dom ≠ DOMAIN → hass_data hass' !! dom = hass_data hass !! dom)
    ∧ hass_forwarded hass'
      = (hass_forwarded hass ++ [(entry_id entry, [COVER])])%list.
Proof.
  intros Hu Hp Hlogin.
  rewrite (async_setup_entry_cases _ _ _ _ _ _ _ _ Hu Hp), Hlogin.
  destruct (setup_state_lookup entry
              {| acc_username := username; acc_password := password |} hass)
    as ((d' & Hd & Hacc & Hrest) & Hdom & Hfwd).
  eexists _, d'. split; [reflexivity |]. auto.
Qed.

(** X2: a config entry without the user name raises [KeyError] for the
    user-name key; one with the user name but without the password raises
    [KeyError] for the password key.  Either way [hass] is as before, and
    the outcome is the same whatever the vendor login would do. *)
Theorem setup_missing_credential_raises_key_error entry hass :
  (data entry !! CONF_USERNAME = None →
   async_setup_entry DOMAIN CONF_USERNAME CONF_PASSWORD login entry hass
   = (Raise (new_exc KeyError [CONF_USERNAME]), hass))
  ∧ (∀ username,
       data entry !! CONF_USERNAME = Some username →
       data entry !! CONF_PASSWORD = None →
       async_setup_entry DOMAIN CONF_USERNAME CONF_PASSWORD login entry hass
       = (Raise (new_exc KeyError [CONF_PASSWORD]), hass)).
Proof.
  unfold async_setup_entry, bind, getitem. split.
  - by intros ->.
  - intros username -> ->. reflexivity.
Qed.

(** X3: setting up two config entries with different entry ids, one after
    the other, leaves both clients in [hass.data[DOMAIN]] and forwards
    the cover platform for both, in that order; [hass.data] does not
    depend on which entry was set up first. *)
Theorem setup_two_entries_keeps_both entry1 entry2 hass u1 p1 u2 p2 :
  data entry1 !! CONF_USERNAME = Some u1 →
  data entry1 !! CONF_PASSWORD = Some p1 →
  data entry2 !! CONF_USERNAME = Some u2 →
  data entry2 !! CONF_PASSWORD = Some p2 →
  login {| acc_username := u1; acc_password := p1 |} = Return true →
  login {| acc_username := u2; acc_password := p2 |} = Return true →
  entry_id entry1 ≠ entry_id entry2 →
  ∃ h1 h2 h1' h2' d,
    async_setup_entry DOMAIN CONF_USERNAME CONF_PASSWORD login entry1 hass
      = (Return true, h1)
    ∧ async_setup_entry DOMAIN CONF_USERNAME CONF_PASSWORD login entry2 h1
      = (Return true, h2)
    ∧ hass_data h2 !! DOMAIN = Some d
    ∧ d !! entry_id entry1 = Some {| acc_username := u1; acc_password := p1 |}
    ∧ d !! entry_id entry2 = Some {| acc_username := u2; acc_password := p2 |}
    ∧ hass_forwarded h2
      = (hass_forwarded hass
         ++ [(entry_id entry1, [COVER]); (entry_id entry2, [COVER])])%list
    ∧ async_setup_entry DOMAIN CONF_USERNAME CONF_PASSWORD login entry2 hass
      = (Return true, h1')
    ∧ async_setup_entry DOMAIN CONF_USERNAME CONF_PASSWORD login entry1 h1'
      = (Return true, h2')
    ∧ hass_data h2' = hass_data h2.
Proof.
  intros Hu1 Hp1 Hu2 Hp2 Hl1 Hl2 Hne.
  do 4 eexists. exists (<[entry_id entry2 :=
                           {| acc_username := u2; acc_password := p2 |}]>
                        (<[entry_id entry1 :=
                             {| acc_username := u1; acc_password := p1 |}]>
                           (default ∅ (hass_data hass !! DOMAIN)))).
  rewrite !(async_setup_entry_cases _ _ _ _ entry1 _ _ _ Hu1 Hp1), Hl1.
  rewrite !(async_setup_entry_cases _ _ _ _ entry2 _ _ _ Hu2 Hp2), Hl2.
  split; [reflexivity |]. split; [reflexivity |]. cbn.
  rewrite !lookup_insert_eq, !insert_insert_eq.
  split; [by destruct (hass_data hass !! DOMAIN) |].
  split; [rewrite lookup_insert_ne by done; apply lookup_insert_eq |].
  split; [reflexivity |].
  split; [by rewrite <- app_assoc |].
  split; [reflexivity |]. split; [reflexivity |].
  cbn. rewrite lookup_insert_eq, insert_insert_eq.
  f_equal. destruct (hass_data hass !! DOMAIN); by apply insert_insert_ne.
Qed.

(** X4: setting up the same config entry a second time replaces its
    client: [hass.data] is as after the first setup, and the platform is
    forwarded once more. *)
Theorem setup_twice_same_hass_data entry hass username password :
  data entry !! CONF_USERNAME = Some username →
  data entry !! CONF_PASSWORD = Some password →
  login {| acc_username := username; acc_password := password |}
    = Return true →
  ∃ h1 h2,
    async_setup_entry DOMAIN CONF_USERNAME CONF_PASSWORD login entry hass
      = (Return true, h1)
    ∧ async_setup_entry DOMAIN CONF_USERNAME CONF_PASSWORD login entry h1
      = (Return true, h2)
    ∧ hass_data h2 = hass_data h1
    ∧ hass_forwarded h2
      = (hass_forwarded h1 ++ [(entry_id entry, [COVER])])%list.
Proof.
  intros Hu Hp Hlogin. do 2 eexists.
  rewrite !(async_setup_entry_cases _ _ _ _ _ _ _ _ Hu Hp), Hlogin.
  split; [reflexivity |]. split; [reflexivity |]. cbn.
  rewrite lookup_insert_eq, !insert_insert_eq. done.
Qed.

End aladdin_connect_setup.

(** The theorems of this section at the sample entries. *)

Lemma setup_success_stores_client_witness :
  ∃ hass' d',
    aladdin_connect.async_setup_entry "aladdin_connect" "username" "password"
      samples.login_accepts samples.entry samples.hass = (Return true, hass')
    ∧ aladdin_connect.hass_data hass' !! "aladdin_connect" = Some d'
    ∧ d' !! "0a1b2c"
      = Some {| aladdin_connect.acc_username := "user@example.org";
                aladdin_connect.acc_password := "secret" |}.
Proof.
  destruct (setup_success_stores_client "aladdin_connect" "username"
              "password" samples.login_accepts samples.entry samples.hass
              "user@example.org" "secret" eq_refl eq_refl eq_refl)
    as (hass' & d' & Hrun & Hd & Hacc & _).
  exists hass', d'. auto.
Defined.

Lemma setup_missing_credential_raises_key_error_witness :
  aladdin_connect.async_setup_entry "aladdin_connect" "username" "password"
    samples.login_accepts samples.entry_no_username samples.hass
  = (Raise (new_exc KeyError ["username"]), samples.hass)
  ∧ aladdin_connect.async_setup_entry "aladdin_connect" "username" "password"
      samples.login_accepts samples.entry_no_password samples.hass
    = (Raise (new_exc KeyError ["password"]), samples.hass).
Proof.
  split.
  - apply (proj1 (setup_missing_credential_raises_key_error
                    "aladdin_connect" "username" "password"
                    samples.login_accepts samples.entry_no_username
                    samples.hass)).
    reflexivity.
  - apply (proj2 (setup_missing_credential_raises_key_error
                    "aladdin_connect" "username" "password"
                    samples.login_accepts samples.entry_no_password
                    samples.hass) "user@example.org"); reflexivity.
Defined.

Lemma setup_two_entries_keeps_both_witness :
  ∃ h1 h2 d,
    aladdin_connect.async_setup_entry "aladdin_connect" "username" "password"
      samples.login_accepts samples.entry samples.hass = (Return true, h1)
    ∧ aladdin_connect.async_setup_entry "aladdin_connect" "username"
        "password" samples.login_accepts samples.entry2 h1 = (Return true, h2)
    ∧ aladdin_connect.hass_data h2 !! "aladdin_connect" = Some d
    ∧ d !! "0a1b2c"
      = Some {| aladdin_connect.acc_username := "user@example.org";
                aladdin_connect.acc_password := "secret" |}
    ∧ d !! "7f8e9d"
      = Some {| aladdin_connect.acc_username := "other@example.org";
                aladdin_connect.acc_password := "hunter2" |}.
Proof.
  destruct (setup_two_entries_keeps_both "aladdin_connect" "username"
              "password" samples.login_accepts samples.entry samples.entry2
              samples.hass "user@example.org" "secret" "other@example.org"
              "hunter2" eq_refl eq_refl eq_refl eq_refl eq_refl eq_refl)
    as (h1 & h2 & _ & _ & d & H1 & H2 & Hd & Ha & Hb & _);
    [discriminate |].
  exists h1, h2, d. auto.
Defined.

Lemma setup_twice_same_hass_data_witness :
  ∃ h1 h2,
    aladdin_connect.async_setup_entry "aladdin_connect" "username" "password"
      samples.login_accepts samples.entry samples.hass = (Return true, h1)
    ∧ aladdin_connect.async_setup_entry "aladdin_connect" "username"
        "password" samples.login_accepts samples.entry h1 = (Return true, h2)
    ∧ aladdin_connect.hass_data h2 = aladdin_connect.hass_data h1.
Proof.
  destruct (setup_twice_same_hass_data "aladdin_connect" "username"
              "password" samples.login_accepts samples.entry samples.hass
              "user@example.org" "secret" eq_refl eq_refl eq_refl)
    as (h1 & h2 & H1 & H2 & Hd & _).
  exists h1, h2. auto.
Defined.

(** ** aemet: the entities a setup builds *)

Section aemet_setup.

Import aemet.

Variable FORECAST_MODE_DAILY : string.
Variable FORECAST_MODES : list string.
Variables DOMAIN ENTRY_NAME ENTRY_WEATHER_COORDINATOR : string.

Implicit Types (hass_data : gmap string (gmap string DomainData))
  (config_entry : ConfigEntry) (domain_data : DomainData).

Abbreviation weather_setup :=
  (async_setup_entry FORECAST_MODE_DAILY FORECAST_MODES DOMAIN ENTRY_NAME
     ENTRY_WEATHER_COORDINATOR).

(** The entity the loop builds for one mode. *)
Abbreviation entity_for n config_entry :=
  (λ mode, AemetWeather__init__ FORECAST_MODE_DAILY (n ++ " " ++ mode)
             (str_opt (unique_id config_entry) ++ " " ++ mode) mode).

Lemma build_entities_named {S} domain_data config_entry n modes (s : S) :
  entry_name domain_data = Some n →
  build_entities FORECAST_MODE_DAILY ENTRY_NAME domain_data config_entry
    modes s
  = (Return (entity_for n config_entry <$> modes), s).
Proof.
  intros Hn. induction modes as [|mode rest IH]; [reflexivity |].
  cbn. unfold bind, domain_getitem. rewrite Hn. cbn. by rewrite IH.
Qed.

Lemma weather_setup_unfold hass_data config_entry dom domain_data c :
  hass_data !! DOMAIN = Some dom →
  dom !! entry_id config_entry = Some domain_data →
  entry_weather_coordinator domain_data = Some c →
  weather_setup config_entry hass_data
  = build_entities FORECAST_MODE_DAILY ENTRY_NAME domain_data config_entry
      FORECAST_MODES hass_data.
Proof.
  intros Hdom Hdata Hc.
  unfold async_setup_entry, bind, get, getitem, domain_getitem. cbn.
  rewrite Hdom. cbn. rewrite Hdata. cbn. by rewrite Hc.
Qed.

(** X5: with the data of the config entry in [hass.data], holding the
    coordinator and the entry name, [async_setup_entry] hands over one
    entity per forecast mode, in the order of [FORECAST_MODES]; the
    entity of a mode is named "<entry name> <mode>", has the unique id
    "<unique id of the entry> <mode>" and keeps the mode.  [hass.data] is
    only read. *)
Theorem weather_setup_builds_entity_per_mode
    hass_data config_entry dom domain_data c n :
  hass_data !! DOMAIN = Some dom →
  dom !! entry_id config_entry = Some domain_data →
  entry_weather_coordinator domain_data = Some c →
  entry_name domain_data = Some n →
  ∃ entities,
    weather_setup config_entry hass_data = (Return entities, hass_data)
    ∧ length entities = length FORECAST_MODES
    ∧ ∀ i mode, FORECAST_MODES !! i = Some mode →
        ∃ self, entities !! i = Some self
                ∧ _forecast_mode self = mode
                ∧ _attr_name self = n ++ " " ++ mode
                ∧ _attr_unique_id self
                  = str_opt (unique_id config_entry) ++ " " ++ mode.
Proof.
  intros Hdom Hdata Hc Hn.
  exists (entity_for n config_entry <$> FORECAST_MODES).
  rewrite (weather_setup_unfold _ _ _ _ _ Hdom Hdata Hc).
  rewrite (build_entities_named _ _ _ _ _ Hn).
  split; [reflexivity |]. split; [apply length_fmap |].
  intros i mode Hi. eexists. rewrite list_lookup_fmap, Hi. cbn.
  split; [reflexivity |]. auto.
Qed.

(** X6: what [async_setup_entry] raises on incomplete data.  A missing
    domain, a missing entry id and a missing coordinator key each raise
    [KeyError] for that key.  A missing entry name raises [KeyError] only
    when there is a forecast mode to build an entity for: with no
    forecast mode the setup returns no entity.  [hass.data] is as before
    in every case. *)
Theorem weather_setup_missing_data hass_data config_entry :
  (hass_data !! DOMAIN = None →
   weather_setup config_entry hass_data
   = (Raise (new_exc KeyError [DOMAIN]), hass_data))
  ∧ (∀ dom, hass_data !! DOMAIN = Some dom →
            dom !! entry_id config_entry = None →
            weather_setup config_entry hass_data
            = (Raise (new_exc KeyError [entry_id config_entry]), hass_data))
  ∧ (∀ dom domain_data,
       hass_data !! DOMAIN = Some dom →
       dom !! entry_id config_entry = Some domain_data →
       entry_weather_coordinator domain_data = None →
       weather_setup config_entry hass_data
       = (Raise (new_exc KeyError [ENTRY_WEATHER_COORDINATOR]), hass_data))
  ∧ (∀ dom domain_data c,
       hass_data !! DOMAIN = Some dom →
       dom !! entry_id config_entry = Some domain_data →
       entry_weather_coordinator domain_data = Some c →
       entry_name domain_data = None →
       weather_setup config_entry hass_data
       = match FORECAST_MODES with
         | [] => (Return [], hass_data)
         | _ :: _ => (Raise (new_exc KeyError [ENTRY_NAME]), hass_data)
         end).
Proof.
  split; [| split; [| split]].
  - intros Hdom. unfold async_setup_entry, bind, get, getitem. cbn.
    by rewrite Hdom.
  - intros dom Hdom Hdata. unfold async_setup_entry, bind, get, getitem. cbn.
    rewrite Hdom. cbn. by rewrite Hdata.
  - intros dom domain_data Hdom Hdata Hc.
    unfold async_setup_entry, bind, get, getitem, domain_getitem. cbn.
    rewrite Hdom. cbn. rewrite Hdata. cbn. by rewrite Hc.
  - intros dom domain_data c Hdom Hdata Hc Hn.
    rewrite (weather_setup_unfold _ _ _ _ _ Hdom Hdata Hc).
    destruct FORECAST_MODES as [|mode rest]; [reflexivity |].
    cbn. unfold bind, domain_getitem. by rewrite Hn.
Qed.

Lemma prefix_inj (prefix : string) : Inj (=) (=) (λ mode, prefix ++ " " ++ mode).
Proof. intros m1 m2 Heq. by apply append_inv_head, append_inv_head in Heq. Qed.

(** X7: when no forecast mode is listed twice, the entities of one setup
    have pairwise different unique ids and pairwise different names. *)
Theorem weather_setup_unique_ids hass_data config_entry entities s :
  NoDup FORECAST_MODES →
  weather_setup config_entry hass_data = (Return entities, s) →
  NoDup (_attr_unique_id <$> entities) ∧ NoDup (_attr_name <$> entities).
Proof.
  intros Hnodup. unfold async_setup_entry, bind, get, getitem. cbn.
  destruct (hass_data !! DOMAIN) as [dom|]; cbn; [| discriminate].
  destruct (dom !! entry_id config_entry) as [domain_data|]; cbn;
    [| discriminate].
  unfold domain_getitem at 1.
  destruct (entry_weather_coordinator domain_data); cbn; [| discriminate].
  destruct (entry_name domain_data) as [n|] eqn:Hn.
  - rewrite (build_entities_named _ _ _ _ _ Hn). intros [= <- <-].
    rewrite <- !list_fmap_compose. split.
    + apply NoDup_fmap_2; [| exact Hnodup].
      intros m1 m2 Heq. cbn in Heq. exact (prefix_inj _ m1 m2 Heq).
    + apply NoDup_fmap_2; [| exact Hnodup].
      intros m1 m2 Heq. cbn in Heq. exact (prefix_inj _ m1 m2 Heq).
  - destruct FORECAST_MODES as [|mode rest].
    + cbn. intros [= <- <-]. split; constructor.
    + cbn. unfold bind, domain_getitem. rewrite Hn. discriminate.
Qed.

Lemma filter_eq_NoDup (x : string) (l : list string) :
  NoDup l → x ∈ l → filter (λ y, y = x) l = [x].
Proof.
  induction 1 as [|y l Hy Hnodup IH]; intros Hin.
  - by apply elem_of_nil in Hin.
  - apply elem_of_cons in Hin as [<- | Hin].
    + rewrite filter_cons_True by done. f_equal.
      clear IH. induction l as [|z l IHl]; [reflexivity |].
      apply not_elem_of_cons in Hy as [Hz Hy].
      inversion_clear Hnodup.
      rewrite filter_cons_False by done. auto.
    + rewrite filter_cons_False by (intros ->; contradiction). auto.
Qed.

Lemma filter_enabled_entities n config_entry (modes : list string) :
  filter (λ self, _attr_entity_registry_enabled_default self = true)
    (entity_for n config_entry <$> modes)
  = entity_for n config_entry
      <$> filter (λ mode, mode = FORECAST_MODE_DAILY) modes.
Proof.
  induction modes as [|mode rest IH]; [reflexivity |].
  rewrite fmap_cons.
  destruct (decide (mode = FORECAST_MODE_DAILY)) as [Heq | Hne].
  - rewrite !filter_cons_True; [| done | cbn; by apply bool_decide_eq_true].
    by rewrite fmap_cons, IH.
  - rewrite !filter_cons_False;
      [done | done | cbn; rewrite bool_decide_eq_false_2 by done; discriminate].
Qed.

(** X8: when the forecast modes are listed once each and the daily mode
    is among them, exactly one of the entities a setup builds is enabled
    by default in the registry, the entity of the daily mode.  When the
    daily mode is not among them, none is. *)
Theorem weather_setup_enables_only_daily
    hass_data config_entry dom domain_data c n :
  hass_data !! DOMAIN = Some dom →
  dom !! entry_id config_entry = Some domain_data →
  entry_weather_coordinator domain_data = Some c →
  entry_name domain_data = Some n →
  NoDup FORECAST_MODES →
  ∃ entities,
    weather_setup config_entry hass_data = (Return entities, hass_data)
    ∧ (FORECAST_MODE_DAILY ∈ FORECAST_MODES →
       filter (λ self, _attr_entity_registry_enabled_default self = true)
         entities
       = [AemetWeather__init__ FORECAST_MODE_DAILY
            (n ++ " " ++ FORECAST_MODE_DAILY)
            (str_opt (unique_id config_entry) ++ " " ++ FORECAST_MODE_DAILY)
            FORECAST_MODE_DAILY])
    ∧ (FORECAST_MODE_DAILY ∉ FORECAST_MODES →
       filter (λ self, _attr_entity_registry_enabled_default self = true)
         entities = []).
Proof.
  intros Hdom Hdata Hc Hn Hnodup.
  exists (entity_for n config_entry <$> FORECAST_MODES).
  rewrite (weather_setup_unfold _ _ _ _ _ Hdom Hdata Hc).
  rewrite (build_entities_named _ _ _ _ _ Hn).
  split; [reflexivity |]. rewrite filter_enabled_entities. split.
  - intros Hin. by rewrite (filter_eq_NoDup _ _ Hnodup Hin).
  - intros Hnotin.
    assert (filter (λ mode, mode = FORECAST_MODE_DAILY) FORECAST_MODES = [])
      as ->; [| reflexivity].
    clear -Hnotin. induction FORECAST_MODES as [|m l IH]; [reflexivity |].
    apply not_elem_of_cons in Hnotin as [Hm Hl].
    rewrite filter_cons_False by done. auto.
Qed.

End aemet_setup.

(** The theorems of this section at the sample data. *)

Lemma FORECAST_MODES_NoDup : NoDup samples.FORECAST_MODES.
Proof.
  apply NoDup_cons. split; [| apply NoDup_singleton].
  intros Hin. apply list_elem_of_singleton in Hin. discriminate Hin.
Qed.

Lemma weather_setup_builds_entity_per_mode_witness :
  ∃ entities,
    aemet.async_setup_entry "daily" samples.FORECAST_MODES "aemet" "name"
      "weather_coordinator" samples.entry samples.weather_hass_data
    = (Return entities, samples.weather_hass_data)
    ∧ length entities = 2%nat
    ∧ ∃ self, entities !! 1%nat = Some self
              ∧ aemet._forecast_mode self = "hourly"
              ∧ aemet._attr_name self = "Home hourly"
              ∧ aemet._attr_unique_id self = "nas hourly".
Proof.
  destruct (weather_setup_builds_entity_per_mode "daily"
              samples.FORECAST_MODES "aemet" "name" "weather_coordinator"
              samples.weather_hass_data samples.entry
              {[ "0a1b2c" := samples.weather_domain_data ]}
              samples.weather_domain_data tt "Home"
              eq_refl eq_refl eq_refl eq_refl)
    as (entities & Hrun & Hlen & Hall).
  exists entities. split; [exact Hrun |]. split; [exact Hlen |].
  exact (Hall 1%nat "hourly" eq_refl).
Defined.

Lemma weather_setup_missing_data_witness :
  aemet.async_setup_entry "daily" samples.FORECAST_MODES "aemet" "name"
    "weather_coordinator" samples.entry ∅
  = (Raise (new_exc KeyError ["aemet"]), ∅)
  ∧ aemet.async_setup_entry "daily" samples.FORECAST_MODES "aemet" "name"
      "weather_coordinator" samples.entry samples.weather_hass_data_unnamed
    = (Raise (new_exc KeyError ["name"]), samples.weather_hass_data_unnamed)
  ∧ aemet.async_setup_entry "daily" [] "aemet" "name"
      "weather_coordinator" samples.entry samples.weather_hass_data_unnamed
    = (Return [], samples.weather_hass_data_unnamed).
Proof.
  split; [| split].
  - exact (proj1 (weather_setup_missing_data "daily" samples.FORECAST_MODES
                    "aemet" "name" "weather_coordinator" ∅ samples.entry)
             eq_refl).
  - exact (proj2 (proj2 (proj2 (weather_setup_missing_data "daily"
                    samples.FORECAST_MODES "aemet" "name"
                    "weather_coordinator" samples.weather_hass_data_unnamed
                    samples.entry)))
             {[ "0a1b2c" := samples.weather_domain_data_unnamed ]}
             samples.weather_domain_data_unnamed tt
             eq_refl eq_refl eq_refl eq_refl).
  - exact (proj2 (proj2 (proj2 (weather_setup_missing_data "daily" []
                    "aemet" "name" "weather_coordinator"
                    samples.weather_hass_data_unnamed samples.entry)))
             {[ "0a1b2c" := samples.weather_domain_data_unnamed ]}
             samples.weather_domain_data_unnamed tt
             eq_refl eq_refl eq_refl eq_refl).
Defined.

Lemma weather_setup_unique_ids_witness :
  NoDup (aemet._attr_unique_id
           <$> [aemet.AemetWeather__init__ "daily" "Home daily" "nas daily"
                  "daily";
                aemet.AemetWeather__init__ "daily" "Home hourly" "nas hourly"
                  "hourly"]).
Proof.
  exact (proj1 (weather_setup_unique_ids "daily" samples.FORECAST_MODES
                  "aemet" "name" "weather_coordinator"
                  samples.weather_hass_data samples.entry _ _
                  FORECAST_MODES_NoDup eq_refl)).
Defined.

Lemma weather_setup_enables_only_daily_witness :
  ∃ entities,
    aemet.async_setup_entry "daily" samples.FORECAST_MODES "aemet" "name"
      "weather_coordinator" samples.entry samples.weather_hass_data
    = (Return entities, samples.weather_hass_data)
    ∧ filter (λ self, aemet._attr_entity_registry_enabled_default self = true)
        entities
      = [aemet.AemetWeather__init__ "daily" "Home daily" "nas daily" "daily"].
Proof.
  destruct (weather_setup_enables_only_daily "daily" samples.FORECAST_MODES
              "aemet" "name" "weather_coordinator"
              samples.weather_hass_data samples.entry
              {[ "0a1b2c" := samples.weather_domain_data ]}
              samples.weather_domain_data tt "Home"
              eq_refl eq_refl eq_refl eq_refl FORECAST_MODES_NoDup)
    as (entities & Hrun & Hdaily & _).
  exists entities. split; [exact Hrun |].
  apply Hdaily. apply list_elem_of_here.
Defined.

(** ** synology_dsm: the camera entity beyond image capture *)

Section camera_entity.

Import synology_dsm.

Variable surveillance_station : SynoSurveillanceStation.t.

Implicit Types (w : World) (self : SynoDSMCamera).

(** The methods that start by reading the camera raise [KeyError] on a
    camera the snapshot does not have. *)
Lemma camera_data_bind_None {A} self w (k : SynoCamera.t → M World A) :
  snapshot_camera w (key (entity_description self)) = None →
  ∃ key_arg,
    bind (camera_data self) k w = (Raise (new_exc KeyError [key_arg]), w).
Proof.
  intros Hcam. unfold bind, camera_data.
  destruct (cameras_getitem_None _ _ Hcam) as [key_arg ->]. eauto.
Qed.

(** X9: [stream_source] returns [None] when [available] is false, and the
    RTSP URL of the camera's live view when it is true; it makes no
    vendor call and leaves the world as it is. *)
Theorem stream_source_none_or_rtsp self w :
  ((available self w).1 = Return false →
   stream_source self w = (Return None, w))
  ∧ (∀ cam, (available self w).1 = Return true →
            snapshot_camera w (key (entity_description self)) = Some cam →
            stream_source self w
            = (Return (Some (SynoCamera.live_view_rtsp cam)), w)).
Proof.
  split.
  - intros Hav.
    destruct (available_Return_inv _ _ _ Hav) as [Hrun [cam Hcam]].
    unfold stream_source, bind, camera_data.
    by rewrite (cameras_getitem_Some _ _ _ Hcam), Hrun.
  - intros cam Hav Hcam.
    destruct (available_Return_inv _ _ _ Hav) as [Hrun _].
    unfold stream_source, bind, camera_data.
    rewrite (cameras_getitem_Some _ _ _ Hcam), Hrun. cbn -[cameras_getitem].
    by rewrite (cameras_getitem_Some _ _ _ Hcam).
Qed.

(** X10: [camera_image] calls the vendor once, for the entity's camera
    and snapshot quality, when [available] is true, and not at all
    otherwise; whatever the outcome, the coordinator, the entities, the
    streams and the dispatcher are as before. *)
Theorem camera_image_vendor_calls self w :
  ((available self w).1 = Return true →
   api_calls (camera_image surveillance_station self w).2
   = (api_calls w ++ [GetCameraImage (key (entity_description self))
                        (snapshot_quality self)])%list)
  ∧ ((available self w).1 ≠ Return true →
     api_calls (camera_image surveillance_station self w).2 = api_calls w)
  ∧ coordinator (camera_image surveillance_station self w).2 = coordinator w
  ∧ entities (camera_image surveillance_station self w).2 = entities w
  ∧ streams (camera_image surveillance_station self w).2 = streams w
  ∧ dispatcher (camera_image surveillance_station self w).2 = dispatcher w.
Proof.
  destruct (snapshot_camera w (key (entity_description self)))
    as [cam|] eqn:Hcam.
  - pose proof (available_Some _ _ _ Hcam) as Hav.
    destruct (SynoCamera.is_enabled cam && last_update_success (coordinator w))
      eqn:Hb.
    + assert ((available self w).1 = Return true) as Hav1 by by rewrite Hav.
      rewrite (camera_image_available surveillance_station _ _ Hav1).
      destruct (SynoSurveillanceStation.get_camera_image _ _ _) as [img|e];
        [| destruct (isinstance e _)]; cbn; by repeat split.
    + assert ((available self w).1 = Return false) as Hav0 by by rewrite Hav.
      rewrite (camera_image_unavailable surveillance_station _ _ Hav0).
      split; [rewrite Hav0; discriminate | by repeat split].
  - destruct (available_None _ _ Hcam) as [k Hav].
    unfold camera_image.
    match goal with
    | |- context [bind (camera_data self) ?k w] =>
        destruct (camera_data_bind_None self w k Hcam) as [k' ->]
    end.
    split; [rewrite Hav; discriminate | by repeat split].
Qed.

(** X11: the motion-detection methods do not look at [available]: for a
    camera of the snapshot, enabled or not and whether or not the last
    poll succeeded, each makes its vendor call once and gives what the
    call gives. *)
Theorem motion_detection_ignores_availability self w b :
  (available self w).1 = Return b →
  enable_motion_detection surveillance_station self w
  = (SynoSurveillanceStation.enable_motion_detection surveillance_station
       (key (entity_description self)),
     with_api_calls
       (λ l, (l ++ [EnableMotionDetection
                      (key (entity_description self))])%list) w)
  ∧ disable_motion_detection surveillance_station self w
    = (SynoSurveillanceStation.disable_motion_detection surveillance_station
         (key (entity_description self)),
       with_api_calls
         (λ l, (l ++ [DisableMotionDetection
                        (key (entity_description self))])%list) w).
Proof.
  intros Hav. destruct (available_Return_inv _ _ _ Hav) as [_ [cam Hcam]].
  split.
  - exact (enable_motion_detection_run _ _ _ _ Hcam).
  - exact (disable_motion_detection_run _ _ _ _ Hcam).
Qed.

(** X12: for an entity whose camera is not in the snapshot, every property
    and method raises [KeyError]; no vendor call is made, not even by the
    motion-detection methods, and the world is as before. *)
Theorem missing_camera_raises_key_error self w :
  snapshot_camera w (key (entity_description self)) = None →
  (∃ k, available self w = (Raise (new_exc KeyError [k]), w))
  ∧ (∃ k, is_recording self w = (Raise (new_exc KeyError [k]), w))
  ∧ (∃ k, motion_detection_enabled self w
          = (Raise (new_exc KeyError [k]), w))
  ∧ (∃ k, camera_image surveillance_station self w
          = (Raise (new_exc KeyError [k]), w))
  ∧ (∃ k, stream_source self w = (Raise (new_exc KeyError [k]), w))
  ∧ (∃ k, enable_motion_detection surveillance_station self w
          = (Raise (new_exc KeyError [k]), w))
  ∧ (∃ k, disable_motion_detection surveillance_station self w
          = (Raise (new_exc KeyError [k]), w)).
Proof.
  intros Hcam.
  split; [by apply available_None |].
  repeat split; by apply camera_data_bind_None.
Qed.

End camera_entity.

(** ** synology_dsm: construction of the entities *)

Section camera_platform.

Import synology_dsm.

Variables DOMAIN SYNO_API COORDINATOR_CAMERAS : string.
Variables CAMERA_API_KEY INFO_API_KEY : string.
Variable CONF_SNAPSHOT_QUALITY : string.
Variable DEFAULT_SNAPSHOT_QUALITY : Z.
Variable async_config_entry_first_refresh : M World unit.

Implicit Types (w : World) (self : SynoDSMCamera) (api : SynoApi).

Abbreviation new_camera :=
  (SynoDSMCamera__init__ CONF_SNAPSHOT_QUALITY DEFAULT_SNAPSHOT_QUALITY
     CAMERA_API_KEY).

Abbreviation camera_setup :=
  (async_setup_entry DOMAIN SYNO_API COORDINATOR_CAMERAS CAMERA_API_KEY
     CONF_SNAPSHOT_QUALITY DEFAULT_SNAPSHOT_QUALITY
     async_config_entry_first_refresh).

(** The entity [__init__] builds for a camera of the snapshot. *)
Abbreviation camera_entity api_entry camera_id cam :=
  ({| entity_description :=
        {| api_key := CAMERA_API_KEY;
           key := camera_id;
           name := SynoCamera.name cam;
           entity_registry_enabled_default := SynoCamera.is_enabled cam |};
      snapshot_quality :=
        options_get (options api_entry) CONF_SNAPSHOT_QUALITY
          DEFAULT_SNAPSHOT_QUALITY;
      platform := None;
      stream := None |}).

Lemma new_camera_Some api_entry camera_id w cam :
  snapshot_camera w camera_id = Some cam →
  new_camera api_entry camera_id w
  = (Return (camera_entity api_entry camera_id cam), w).
Proof.
  intros Hcam. unfold SynoDSMCamera__init__, bind.
  by rewrite !(cameras_getitem_Some _ _ _ Hcam).
Qed.

(** X13: constructing the entity of a camera of the snapshot succeeds and
    leaves the world as it is.  The entity has the camera's snapshot key,
    its name, and is enabled by default in the registry exactly when the
    camera is enabled; its snapshot quality is the configured option, or
    the default when the option is not set; it has no platform and no
    stream yet.  On the same snapshot its [available] then returns
    (enabled and last poll succeeded) instead of raising. *)
Theorem constructed_camera_reads_snapshot api_entry camera_id w cam :
  snapshot_camera w camera_id = Some cam →
  ∃ self,
    new_camera api_entry camera_id w = (Return self, w)
    ∧ key (entity_description self) = camera_id
    ∧ name (entity_description self) = SynoCamera.name cam
    ∧ entity_registry_enabled_default (entity_description self)
      = SynoCamera.is_enabled cam
    ∧ snapshot_quality self
      = default DEFAULT_SNAPSHOT_QUALITY
          (options api_entry !! CONF_SNAPSHOT_QUALITY)
    ∧ platform self = None
    ∧ stream self = None
    ∧ available self w
      = (Return (entity_registry_enabled_default (entity_description self)
                 && last_update_success (coordinator w)), w).
Proof.
  intros Hcam. eexists. split; [by apply new_camera_Some |]. cbn.
  repeat (split; [reflexivity |]).
  by apply (available_Some _ _ cam).
Qed.

(** Constructing the entity of a camera the snapshot lacks raises
    [KeyError]. *)
Lemma new_camera_None api_entry camera_id w :
  snapshot_camera w camera_id = None →
  ∃ k, new_camera api_entry camera_id w = (Raise (new_exc KeyError [k]), w).
Proof.
  intros Hcam. unfold SynoDSMCamera__init__, bind.
  destruct (cameras_getitem_None _ _ Hcam) as [k ->]. eauto.
Qed.

(** The generator over camera ids that are all in the snapshot. *)
Lemma construct_cameras_all api (cams : gmap string SynoCamera.t)
    (ids : list string) w :
  coordinator_data (coordinator w) !! "cameras" = Some cams →
  (∀ camera_id, camera_id ∈ ids → is_Some (cams !! camera_id)) →
  ∃ ents,
    construct_cameras CAMERA_API_KEY CONF_SNAPSHOT_QUALITY
      DEFAULT_SNAPSHOT_QUALITY api ids w = (Return ents, w)
    ∧ Forall2 (λ camera_id self,
         ∃ cam, cams !! camera_id = Some cam
                ∧ self = camera_entity (_entry api) camera_id cam) ids ents.
Proof.
  intros Hcams. induction ids as [|camera_id rest IH]; intros Hall.
  - exists []. split; [reflexivity | constructor].
  - destruct (Hall camera_id) as [cam Hcam]; [apply list_elem_of_here |].
    destruct IH as (ents & Hrun & Hents).
    { intros c Hc. apply Hall. by apply list_elem_of_further. }
    exists (camera_entity (_entry api) camera_id cam :: ents). split.
    + cbn. unfold bind.
      rewrite (new_camera_Some _ _ _ cam), Hrun; [reflexivity |].
      unfold snapshot_camera. by rewrite Hcams.
    + constructor; eauto.
Qed.

(** X14: [async_setup_entry] adds no entity when the NAS does not offer
    the camera API: it returns before the first refresh of the
    coordinator, whatever that refresh would do, and the world is as
    before.  When the API is offered and the first refresh raises, the
    exception is the outcome and no entity is added. *)
Theorem camera_setup_gated_by_camera_api
    hass_data entry dom u entry_data api w :
  hass_data !! DOMAIN = Some dom →
  unique_id entry = Some u →
  dom !! u = Some entry_data →
  entry_syno_api entry_data = Some api →
  (CAMERA_API_KEY ∉ dsm_apis api →
   camera_setup hass_data entry w = (Return None, w))
  ∧ (∀ c e w1,
       CAMERA_API_KEY ∈ dsm_apis api →
       entry_coordinator_cameras entry_data = Some c →
       async_config_entry_first_refresh w = (Raise e, w1) →
       camera_setup hass_data entry w = (Raise e, w1)).
Proof.
  intros Hdom Hu Hdata Hapi.
  unfold async_setup_entry, bind, getitem, entry_data_getitem.
  rewrite Hdom. cbn. rewrite Hu, Hdata. cbn. rewrite Hapi. cbn. split.
  - intros Hnotin. by rewrite bool_decide_eq_false_2.
  - intros c e w1 Hin Hc Hrefresh.
    rewrite bool_decide_eq_true_2 by done. cbn.
    rewrite Hc. cbn. by rewrite Hrefresh.
Qed.

(** X15: when the NAS offers the camera API and the first refresh
    succeeds, [async_setup_entry] hands over one entity for every camera
    of the refreshed snapshot and no other: the keys of the entities are
    the camera ids of the snapshot, each once, and every entity carries
    the name and the enabled flag of its camera, without platform or
    stream.  The world is the one the refresh left. *)
Theorem camera_setup_builds_entity_per_camera
    hass_data entry dom u entry_data api c w w1 cams :
  hass_data !! DOMAIN = Some dom →
  unique_id entry = Some u →
  dom !! u = Some entry_data →
  entry_syno_api entry_data = Some api →
  CAMERA_API_KEY ∈ dsm_apis api →
  entry_coordinator_cameras entry_data = Some c →
  async_config_entry_first_refresh w = (Return tt, w1) →
  coordinator_data (coordinator w1) !! "cameras" = Some cams →
  ∃ ents,
    camera_setup hass_data entry w = (Return (Some ents), w1)
    ∧ NoDup ((λ self, key (entity_description self)) <$> ents)
    ∧ (∀ camera_id,
         camera_id ∈ (λ self, key (entity_description self)) <$> ents
         ↔ is_Some (cams !! camera_id))
    ∧ (∀ self, self ∈ ents →
         ∃ cam, cams !! key (entity_description self) = Some cam
                ∧ name (entity_description self) = SynoCamera.name cam
                ∧ entity_registry_enabled_default (entity_description self)
                  = SynoCamera.is_enabled cam
                ∧ platform self = None
                ∧ stream self = None).
Proof.
  intros Hdom Hu Hdata Hapi Hin Hc Hrefresh Hcams.
  destruct (construct_cameras_all api cams (map_to_list cams).*1 w1 Hcams)
    as (ents & Hrun & Hents).
  { intros camera_id Hid. apply list_elem_of_fmap in Hid as ([k cam] & -> & Hk).
    apply elem_of_map_to_list in Hk. by exists cam. }
  assert ((λ self, key (entity_description self)) <$> ents
          = (map_to_list cams).*1) as Hkeys.
  { clear Hrun. induction Hents as [|k self ks ents (cam & _ & ->) _ IH];
      [reflexivity |].
    rewrite !fmap_cons. by rewrite IH. }
  exists ents. split; [| split; [| split]].
  - unfold async_setup_entry, bind, getitem, entry_data_getitem, get.
    rewrite Hdom. cbn. rewrite Hu, Hdata. cbn. rewrite Hapi. cbn.
    rewrite bool_decide_eq_true_2 by done. cbn.
    rewrite Hc. cbn. rewrite Hrefresh. cbn. rewrite Hcams. cbn.
    fold (construct_cameras CAMERA_API_KEY CONF_SNAPSHOT_QUALITY
            DEFAULT_SNAPSHOT_QUALITY api).
    by rewrite Hrun.
  - rewrite Hkeys. apply NoDup_fst_map_to_list.
  - intros camera_id. rewrite Hkeys, list_elem_of_fmap. split.
    + intros ([k cam] & -> & Hk). apply elem_of_map_to_list in Hk.
      by exists cam.
    + intros [cam Hcam]. exists (camera_id, cam).
      split; [reflexivity | by apply elem_of_map_to_list].
  - intros self Hself. clear Hrun Hkeys.
    induction Hents as [|k self' ks ents (cam & Hcam & ->) _ IH];
      [by apply elem_of_nil in Hself |].
    apply elem_of_cons in Hself as [-> | Hself]; [| by apply IH].
    exists cam. by repeat split.
Qed.

(** Two cuts of a string at an underscore before a decimal number are
    the same cut. *)
Lemma serial_id_inj (serial serial' : string) (camera camera' : Z) :
  serial ++ "_" ++ pretty camera = serial' ++ "_" ++ pretty camera' →
  serial = serial' ∧ camera = camera'.
Proof.
  rewrite !(append_cons "_" ""), !append_nil_l. intros Heq.
  apply append_sep_inj in Heq as [-> Hp];
    [| apply pretty_Z_no_underscore | apply pretty_Z_no_underscore].
  split; [reflexivity |]. by apply (inj pretty).
Qed.

(** X16: the device identifiers of two camera entities are the same only
    for the same NAS serial number and the same camera id (for one and
    the same domain); in particular two cameras of one NAS never share a
    device.  Both entities name the NAS itself in [via_device] when their
    serial numbers agree. *)
Theorem device_info_identifies_camera api api' self self' w w' cam cam' :
  snapshot_camera w (key (entity_description self)) = Some cam →
  snapshot_camera w' (key (entity_description self')) = Some cam' →
  ∃ info info',
    device_info DOMAIN INFO_API_KEY api self w = (Return info, w)
    ∧ device_info DOMAIN INFO_API_KEY api' self' w' = (Return info', w')
    ∧ (DeviceInfo.identifiers info = DeviceInfo.identifiers info'
       ↔ information_serial api = information_serial api'
         ∧ SynoCamera.id cam = SynoCamera.id cam')
    ∧ (information_serial api = information_serial api' →
       DeviceInfo.via_device info = DeviceInfo.via_device info')
    ∧ DeviceInfo.name info = SynoCamera.name cam
    ∧ DeviceInfo.model info = SynoCamera.model cam.
Proof.
  intros Hcam Hcam'. do 2 eexists.
  unfold device_info, bind, camera_data.
  rewrite !(cameras_getitem_Some _ _ _ Hcam),
    !(cameras_getitem_Some _ _ _ Hcam').
  split; [reflexivity |]. split; [reflexivity |]. cbn.
  split; [| split; [by intros -> | by split]].
  split.
  - intros Heq. apply (inj singleton) in Heq. injection Heq as Heq.
    by apply serial_id_inj.
  - by intros [-> ->].
Qed.

End camera_platform.

(** ** synology_dsm: connecting to and delivering the stream-source signal *)

Section signal_delivery.

Import synology_dsm.

Variable SIGNAL : string.

Implicit Types (w : World) (ent : SynoDSMCamera).

(** X17: two signal names are equal exactly when they are for the same
    config entry and the same camera id, whatever characters the entry
    id is made of. *)
Theorem signal_name_eq_iff (entry entry' : string) (camera camera' : Z) :
  signal_name SIGNAL entry camera = signal_name SIGNAL entry' camera'
  ↔ entry = entry' ∧ camera = camera'.
Proof.
  split; [apply signal_name_inj | by intros [-> ->]].
Qed.

(** The run of [_listen_source_updates] on an entity that has a platform
    with a config entry and whose camera is in the snapshot. *)
Lemma _listen_source_updates_run w i ent p ce cam :
  entities w !! i = Some ent →
  platform ent = Some p → config_entry p = Some ce →
  snapshot_camera w (key (entity_description ent)) = Some cam →
  _listen_source_updates SIGNAL i w
  = (Return tt,
     with_dispatcher
       (λ l, (l ++ [(signal_name SIGNAL (entry_id ce)
                       (SynoCamera.id cam), i)])%list) w).
Proof.
  intros Hent Hp Hce Hcam.
  unfold _listen_source_updates, bind, get, assert_some.
  cbn -[cameras_getitem]. rewrite Hent, Hp. cbn -[cameras_getitem].
  rewrite Hce. cbn -[cameras_getitem]. unfold camera_data.
  by rewrite (cameras_getitem_Some _ _ _ Hcam).
Qed.

(** X18: [_listen_source_updates] on an entity without platform, or whose
    platform has no config entry, fails its assertion; on an entity whose
    camera is not in the snapshot it raises [KeyError].  In these cases
    nothing is connected and the world is as before.  Otherwise it
    returns, having connected the entity under the signal name of its
    config entry and camera id, and changed nothing else. *)
Theorem listen_source_updates_outcomes w i ent :
  entities w !! i = Some ent →
  (platform ent = None →
   _listen_source_updates SIGNAL i w = (Raise (new_exc AssertionError []), w))
  ∧ (∀ p, platform ent = Some p → config_entry p = None →
          _listen_source_updates SIGNAL i w
          = (Raise (new_exc AssertionError []), w))
  ∧ (∀ p ce, platform ent = Some p → config_entry p = Some ce →
             snapshot_camera w (key (entity_description ent)) = None →
             ∃ k, _listen_source_updates SIGNAL i w
                  = (Raise (new_exc KeyError [k]), w))
  ∧ (∀ p ce cam,
       platform ent = Some p → config_entry p = Some ce →
       snapshot_camera w (key (entity_description ent)) = Some cam →
       _listen_source_updates SIGNAL i w
       = (Return tt,
          with_dispatcher
            (λ l, (l ++ [(signal_name SIGNAL (entry_id ce)
                            (SynoCamera.id cam), i)])%list) w)).
Proof.
  intros Hent.
  split; [| split; [| split]];
    [| | | intros p ce cam; by apply _listen_source_updates_run].
  all: unfold _listen_source_updates, bind, get, assert_some;
    cbn -[cameras_getitem]; rewrite Hent.
  - by intros ->.
  - intros p Hp Hce. rewrite Hp. cbn -[cameras_getitem]. by rewrite Hce.
  - intros p ce Hp Hce Hcam. rewrite Hp. cbn -[cameras_getitem].
    rewrite Hce. cbn -[cameras_getitem]. unfold camera_data.
    destruct (cameras_getitem_None _ _ Hcam) as [k ->]. eauto.
Qed.

(** X19: the callback of an entity without a stream does nothing.  With a
    stream and the camera in the snapshot it replaces the source of the
    stream by the URL.  With a stream but the camera missing from the
    snapshot it raises [KeyError] and the stream keeps its source. *)
Theorem handle_signal_outcomes ent url w :
  (stream ent = None → _handle_signal ent url w = (Return tt, w))
  ∧ (∀ r cam,
       stream ent = Some r →
       snapshot_camera w (key (entity_description ent)) = Some cam →
       _handle_signal ent url w
       = (Return tt, with_streams (alter (update_source url) r) w))
  ∧ (∀ r,
       stream ent = Some r →
       snapshot_camera w (key (entity_description ent)) = None →
       ∃ k, _handle_signal ent url w = (Raise (new_exc KeyError [k]), w)).
Proof.
  rewrite _handle_signal_run. split; [| split].
  - by intros ->.
  - intros r cam -> Hcam. by rewrite (cameras_getitem_Some _ _ _ Hcam).
  - intros r -> Hcam. destruct (cameras_getitem_None _ _ Hcam) as [k ->].
    eauto.
Qed.

(** The listening key depends on the entities and the coordinator
    only. *)
Lemma listening_key_ext w w' i :
  coordinator w' = coordinator w → entities w' = entities w →
  listening_key w' i = listening_key w i.
Proof.
  intros Hc He. unfold listening_key, snapshot_camera. by rewrite Hc, He.
Qed.

Lemma listening_key_Some_inv w i entry camera :
  listening_key w i = Some (entry, camera) →
  ∃ ent cam, entities w !! i = Some ent
             ∧ snapshot_camera w (key (entity_description ent)) = Some cam.
Proof.
  unfold listening_key. destruct (entities w !! i) as [ent|]; [| done].
  destruct (platform ent) as [p|]; [| done].
  destruct (config_entry p); [| done].
  destruct (snapshot_camera w (key (entity_description ent)))
    as [cam|] eqn:Hcam; [| done].
  intros _. by exists ent, cam.
Qed.

(** Callbacks of entities with a listening key do not raise. *)
Lemma call_targets_returns targets url w :
  (∀ i, i ∈ targets → is_Some (listening_key w i)) →
  (call_targets targets url w).1 = Return tt.
Proof.
  revert w. induction targets as [|i rest IH]; intros w Hall; [reflexivity |].
  destruct (Hall i) as [[entry camera] Hkey]; [apply list_elem_of_here |].
  destruct (listening_key_Some_inv _ _ _ _ Hkey) as (ent & cam & Hent & Hcam).
  cbn. unfold bind. rewrite Hent.
  destruct (_handle_signal ent url w) as [o w1] eqn:Hstep.
  destruct (_handle_signal_updated _ _ _ _ _ Hstep)
    as [(Hc & He & _) _].
  rewrite _handle_signal_run, (cameras_getitem_Some _ _ _ Hcam) in Hstep.
  assert (o = Return tt) as -> by (destruct (stream ent); congruence).
  apply IH. intros j Hj. rewrite (listening_key_ext _ _ _ Hc He).
  apply Hall. by apply list_elem_of_further.
Qed.

(** As long as every connection is one [_listen_source_updates] made on
    the current snapshot, the delivery of a signal returns without
    raising. *)
Lemma dispatcher_send_returns w signal url :
  dispatcher_ok SIGNAL w = true →
  (async_dispatcher_send signal url w).1 = Return tt.
Proof.
  intros Hok. unfold async_dispatcher_send, bind. cbn.
  apply call_targets_returns. intros i Hi.
  apply elem_of_targets_of in Hi.
  destruct (dispatcher_ok_elem _ _ _ _ Hok Hi) as (e & c & -> & _). eauto.
Qed.

(** X20: a signal for a config entry and camera id that no entity listens
    for is delivered to nobody: the world is as before. *)
Theorem dispatcher_send_unknown_camera w entry camera url :
  dispatcher_ok SIGNAL w = true →
  (∀ i, listening_key w i ≠ Some (entry, camera)) →
  async_dispatcher_send (signal_name SIGNAL entry camera) url w
  = (Return tt, w).
Proof.
  intros Hok Hnone. unfold async_dispatcher_send, bind. cbn.
  assert (targets_of (signal_name SIGNAL entry camera) (dispatcher w) = [])
    as ->; [| reflexivity].
  apply elem_of_nil_inv. intros i Hi. apply elem_of_targets_of in Hi.
  destruct (dispatcher_ok_elem _ _ _ _ Hok Hi) as (e & c & Hkey & Hname).
  apply signal_name_inj in Hname as [<- <-]. by destruct (Hnone i).
Qed.

(** X21: connecting an entity and then sending the signal of its config
    entry and camera id reaches the entity: the delivery returns and the
    entity's stream has the new URL as its source. *)
Theorem listen_then_send_updates_stream w i ent p ce cam r s url :
  dispatcher_ok SIGNAL w = true →
  entities w !! i = Some ent →
  platform ent = Some p → config_entry p = Some ce →
  snapshot_camera w (key (entity_description ent)) = Some cam →
  stream ent = Some r →
  streams w !! r = Some s →
  ∃ w1 w2,
    async_added_to_hass SIGNAL i w = (Return tt, w1)
    ∧ async_dispatcher_send
        (signal_name SIGNAL (entry_id ce) (SynoCamera.id cam)) url w1
      = (Return tt, w2)
    ∧ streams w2 !! r = Some {| source := url |}.
Proof.
  intros Hok Hent Hp Hce Hcam Hr Hs.
  pose proof (_listen_source_updates_run w i ent p ce cam Hent Hp Hce Hcam)
    as Hrun.
  destruct (_listen_source_updates_ok SIGNAL w i _ _ Hok Hrun) as [Hok1 _].
  set (w1 := with_dispatcher _ w) in *.
  destruct (async_dispatcher_send
              (signal_name SIGNAL (entry_id ce) (SynoCamera.id cam)) url w1)
    as [o w2] eqn:Hsend.
  pose proof (dispatcher_send_returns w1
                (signal_name SIGNAL (entry_id ce) (SynoCamera.id cam)) url
                Hok1) as Ho.
  rewrite Hsend in Ho. cbn in Ho. subst o.
  exists w1, w2. split; [exact Hrun |]. split; [exact Hsend |].
  unfold async_dispatcher_send, bind in Hsend. cbn in Hsend.
  apply call_targets_updated in Hsend as [_ Hall].
  rewrite (Hall eq_refl i ent r);
    [change (streams w1) with (streams w); by rewrite Hs
    | | exact Hent | exact Hr].
  apply elem_of_targets_of. apply elem_of_app. right. apply list_elem_of_here.
Qed.

Lemma World_eq w w' :
  coordinator w = coordinator w' → entities w = entities w' →
  streams w = streams w' → dispatcher w = dispatcher w' →
  api_calls w = api_calls w' → w = w'.
Proof. destruct w, w'. cbn. by intros -> -> -> -> ->. Qed.

Lemma update_source_twice url1 url2 (x : option Stream) :
  update_source url2 <$> (update_source url1 <$> x) = update_source url2 <$> x.
Proof. by destruct x. Qed.

(** Delivering one URL and then another to the same callbacks leaves the
    world the second delivery alone gives. *)
Lemma call_targets_twice targets url1 url2 w w1 w2 w2' :
  call_targets targets url1 w = (Return tt, w1) →
  call_targets targets url2 w1 = (Return tt, w2) →
  call_targets targets url2 w = (Return tt, w2') →
  w2 = w2'.
Proof.
  intros H1 H2 H'.
  apply call_targets_updated in H1 as [(Hc1 & He1 & Hd1 & Ha1 & Hs1) Hall1].
  apply call_targets_updated in H2 as [(Hc2 & He2 & Hd2 & Ha2 & Hs2) Hall2].
  apply call_targets_updated in H' as [(Hc' & He' & Hd' & Ha' & Hs') Hall'].
  rewrite He1 in Hs2, Hall2.
  apply World_eq; [congruence | congruence | | congruence | congruence].
  apply map_eq. intros r.
  assert ((∃ i ent, i ∈ targets ∧ entities w !! i = Some ent
                    ∧ stream ent = Some r) →
          streams w2 !! r = streams w2' !! r) as Hheld.
  { intros (i & ent & Hi & Hent & Hr).
    rewrite (Hall2 eq_refl _ _ _ Hi Hent Hr), (Hall1 eq_refl _ _ _ Hi Hent Hr),
      (Hall' eq_refl _ _ _ Hi Hent Hr).
    apply update_source_twice. }
  destruct (Hs' r) as [Hr' | [Hheld' _]]; [| by apply Hheld].
  destruct (Hs2 r) as [Hr2 | [Hheld2 _]]; [| by apply Hheld].
  destruct (Hs1 r) as [Hr1 | [Hheld1 _]]; [| by apply Hheld].
  congruence.
Qed.

(** X22: when the same signal is sent twice, the later URL wins: sending
    a first URL and then a second one leaves exactly the world that
    sending the second URL alone leaves.  In particular sending the same
    URL twice is the same as sending it once. *)
Theorem dispatcher_send_latest_url_wins w signal url1 url2 :
  dispatcher_ok SIGNAL w = true →
  ∃ w1 w2,
    async_dispatcher_send signal url1 w = (Return tt, w1)
    ∧ async_dispatcher_send signal url2 w1 = (Return tt, w2)
    ∧ async_dispatcher_send signal url2 w = (Return tt, w2).
Proof.
  intros Hok.
  assert (∀ i, i ∈ targets_of signal (dispatcher w) →
               is_Some (listening_key w i)) as Hkeys.
  { intros i Hi. apply elem_of_targets_of in Hi.
    destruct (dispatcher_ok_elem _ _ _ _ Hok Hi) as (e & c & -> & _). eauto. }
  destruct (call_targets (targets_of signal (dispatcher w)) url1 w)
    as [o1 w1] eqn:H1.
  pose proof (call_targets_returns _ url1 w Hkeys) as Ho1.
  rewrite H1 in Ho1. cbn in Ho1. subst o1.
  destruct (call_targets_updated _ _ _ _ _ H1) as [(Hc1 & He1 & Hd1 & _) _].
  destruct (call_targets (targets_of signal (dispatcher w)) url2 w1)
    as [o2 w2] eqn:H2.
  assert (o2 = Return tt) as ->.
  { pose proof (call_targets_returns (targets_of signal (dispatcher w))
                  url2 w1) as Ho2.
    rewrite H2 in Ho2. apply Ho2. intros i Hi.
    rewrite (listening_key_ext _ _ _ Hc1 He1). by apply Hkeys. }
  destruct (call_targets (targets_of signal (dispatcher w)) url2 w)
    as [o' w2'] eqn:H'.
  pose proof (call_targets_returns _ url2 w Hkeys) as Ho'.
  rewrite H' in Ho'. cbn in Ho'. subst o'.
  exists w1, w2. unfold async_dispatcher_send, bind. cbn.
  rewrite Hd1, H1, H2, H'.
  split; [reflexivity |]. split; [reflexivity |].
  by rewrite (call_targets_twice _ _ _ _ _ _ _ H1 H2 H').
Qed.

End signal_delivery.

(** The theorems of the last three sections at the sample cameras. *)

Lemma stream_source_none_or_rtsp_witness :
  synology_dsm.stream_source samples.entity2 samples.world
  = (Return None, samples.world)
  ∧ synology_dsm.stream_source samples.entity1 samples.world
    = (Return (Some "rtsp://nas/1"), samples.world).
Proof.
  split.
  - exact (proj1 (stream_source_none_or_rtsp samples.entity2 samples.world)
             eq_refl).
  - exact (proj2 (stream_source_none_or_rtsp samples.entity1 samples.world)
             samples.camera1 eq_refl eq_refl).
Defined.

Lemma camera_image_vendor_calls_witness :
  synology_dsm.api_calls
    (synology_dsm.camera_image samples.station_down samples.entity1
       samples.world).2
  = [synology_dsm.GetCameraImage "1" 1]
  ∧ synology_dsm.api_calls
      (synology_dsm.camera_image samples.station_up samples.entity2
         samples.world).2 = [].
Proof.
  split.
  - exact (proj1 (camera_image_vendor_calls samples.station_down
                    samples.entity1 samples.world) eq_refl).
  - apply (proj1 (proj2 (camera_image_vendor_calls samples.station_up
                           samples.entity2 samples.world))).
    discriminate.
Defined.

Lemma motion_detection_ignores_availability_witness :
  synology_dsm.available samples.entity2 samples.world
  = (Return false, samples.world)
  ∧ synology_dsm.api_calls
      (synology_dsm.enable_motion_detection samples.station_up
         samples.entity2 samples.world).2
    = [synology_dsm.EnableMotionDetection "2"].
Proof.
  split; [reflexivity |].
  by rewrite (proj1 (motion_detection_ignores_availability samples.station_up
                       samples.entity2 samples.world false eq_refl)).
Defined.

Lemma missing_camera_raises_key_error_witness :
  ∃ k, synology_dsm.enable_motion_detection samples.station_up
         samples.entity_ghost samples.world
       = (Raise (new_exc KeyError [k]), samples.world).
Proof.
  exact (proj1 (proj2 (proj2 (proj2 (proj2 (proj2
           (missing_camera_raises_key_error samples.station_up
              samples.entity_ghost samples.world eq_refl))))))).
Defined.

Lemma constructed_camera_reads_snapshot_witness :
  ∃ self,
    synology_dsm.SynoDSMCamera__init__ "snap_quality" 1
      samples.CAMERA_API_KEY samples.entry "2" samples.world
    = (Return self, samples.world)
    ∧ synology_dsm.entity_registry_enabled_default
        (synology_dsm.entity_description self) = false
    ∧ synology_dsm.snapshot_quality self = 1%Z
    ∧ synology_dsm.available self samples.world
      = (Return false, samples.world).
Proof.
  destruct (constructed_camera_reads_snapshot samples.CAMERA_API_KEY
              "snap_quality" 1 samples.entry "2" samples.world
              samples.camera2 eq_refl)
    as (self & Hrun & _ & _ & Hen & Hq & _ & _ & Hav).
  exists self. split; [exact Hrun |]. split; [exact Hen |].
  split; [exact Hq |]. rewrite Hav, Hen. reflexivity.
Defined.

Lemma camera_setup_gated_by_camera_api_witness :
  synology_dsm.async_setup_entry "synology_dsm" "syno_api"
    "coordinator_cameras" samples.CAMERA_API_KEY "snap_quality" 1
    samples.refresh_fails
    (samples.camera_hass_data samples.api_without_cameras) samples.entry
    samples.world
  = (Return None, samples.world)
  ∧ synology_dsm.async_setup_entry "synology_dsm" "syno_api"
      "coordinator_cameras" samples.CAMERA_API_KEY "snap_quality" 1
      samples.refresh_fails
      (samples.camera_hass_data samples.api_with_cameras) samples.entry
      samples.world
    = (Raise (new_exc ConfigEntryNotReady []), samples.world).
Proof.
  split.
  - apply (proj1 (camera_setup_gated_by_camera_api "synology_dsm" "syno_api"
                    "coordinator_cameras" samples.CAMERA_API_KEY
                    "snap_quality" 1 samples.refresh_fails
                    (samples.camera_hass_data samples.api_without_cameras)
                    samples.entry
                    {[ "nas" := samples.camera_entry_data
                                  samples.api_without_cameras ]}
                    "nas"
                    (samples.camera_entry_data samples.api_without_cameras)
                    samples.api_without_cameras samples.world
                    eq_refl eq_refl eq_refl eq_refl)).
    apply (bool_decide_unpack _). by vm_compute.
  - apply (proj2 (camera_setup_gated_by_camera_api "synology_dsm" "syno_api"
                    "coordinator_cameras" samples.CAMERA_API_KEY
                    "snap_quality" 1 samples.refresh_fails
                    (samples.camera_hass_data samples.api_with_cameras)
                    samples.entry
                    {[ "nas" := samples.camera_entry_data
                                  samples.api_with_cameras ]}
                    "nas"
                    (samples.camera_entry_data samples.api_with_cameras)
                    samples.api_with_cameras samples.world
                    eq_refl eq_refl eq_refl eq_refl) tt);
      [| reflexivity | reflexivity].
    apply (bool_decide_unpack _). by vm_compute.
Defined.

Lemma camera_setup_builds_entity_per_camera_witness :
  ∃ ents,
    synology_dsm.async_setup_entry "synology_dsm" "syno_api"
      "coordinator_cameras" samples.CAMERA_API_KEY "snap_quality" 1
      samples.refresh_ok
      (samples.camera_hass_data samples.api_with_cameras) samples.entry
      samples.world
    = (Return (Some ents), samples.world)
    ∧ "2" ∈ (λ self, synology_dsm.key (synology_dsm.entity_description self))
              <$> ents.
Proof.
  destruct (camera_setup_builds_entity_per_camera "synology_dsm" "syno_api"
              "coordinator_cameras" samples.CAMERA_API_KEY "snap_quality" 1
              samples.refresh_ok
              (samples.camera_hass_data samples.api_with_cameras)
              samples.entry
              {[ "nas" := samples.camera_entry_data samples.api_with_cameras ]}
              "nas" (samples.camera_entry_data samples.api_with_cameras)
              samples.api_with_cameras tt samples.world samples.world
              {[ "1" := samples.camera1; "2" := samples.camera2 ]}
              eq_refl eq_refl eq_refl eq_refl)
    as (ents & Hrun & _ & Hkeys & _);
    [apply (bool_decide_unpack _); by vm_compute
    | reflexivity | reflexivity | reflexivity |].
  exists ents. split; [exact Hrun |].
  apply Hkeys. exists samples.camera2. reflexivity.
Defined.

Lemma device_info_identifies_camera_witness :
  ∃ info info',
    synology_dsm.device_info "synology_dsm" "SYNO.SurveillanceStation.Info"
      samples.api_with_cameras samples.entity1 samples.world
    = (Return info, samples.world)
    ∧ synology_dsm.device_info "synology_dsm" "SYNO.SurveillanceStation.Info"
        samples.api_with_cameras samples.entity2 samples.world
      = (Return info', samples.world)
    ∧ synology_dsm.DeviceInfo.identifiers info
      ≠ synology_dsm.DeviceInfo.identifiers info'.
Proof.
  destruct (device_info_identifies_camera "synology_dsm"
              "SYNO.SurveillanceStation.Info" samples.api_with_cameras
              samples.api_with_cameras samples.entity1 samples.entity2
              samples.world samples.world samples.camera1 samples.camera2
              eq_refl eq_refl)
    as (info & info' & H1 & H2 & Hiff & _).
  exists info, info'. split; [exact H1 |]. split; [exact H2 |].
  intros Heq. apply Hiff in Heq as [_ Hid]. discriminate Hid.
Defined.

Lemma listen_source_updates_outcomes_witness :
  synology_dsm._listen_source_updates samples.SIGNAL_CAMERA_SOURCE_CHANGED
    0 samples.world_odd
  = (Raise (new_exc AssertionError []), samples.world_odd)
  ∧ synology_dsm._listen_source_updates samples.SIGNAL_CAMERA_SOURCE_CHANGED
      1 samples.world_odd
    = (Raise (new_exc AssertionError []), samples.world_odd)
  ∧ (∃ k, synology_dsm._listen_source_updates
            samples.SIGNAL_CAMERA_SOURCE_CHANGED 2 samples.world_odd
          = (Raise (new_exc KeyError [k]), samples.world_odd))
  ∧ synology_dsm.dispatcher
      (synology_dsm._listen_source_updates
         samples.SIGNAL_CAMERA_SOURCE_CHANGED 1 samples.world).2
    = [("synology_dsm.camera_stream_source_changed_0a1b2c_2", 1%nat)].
Proof.
  split; [| split; [| split]].
  - exact (proj1 (listen_source_updates_outcomes
                    samples.SIGNAL_CAMERA_SOURCE_CHANGED samples.world_odd
                    0 samples.entity_unplaced eq_refl) eq_refl).
  - exact (proj1 (proj2 (listen_source_updates_outcomes
                    samples.SIGNAL_CAMERA_SOURCE_CHANGED samples.world_odd
                    1 samples.entity_detached eq_refl))
             {| synology_dsm.config_entry := None |} eq_refl eq_refl).
  - exact (proj1 (proj2 (proj2 (listen_source_updates_outcomes
                    samples.SIGNAL_CAMERA_SOURCE_CHANGED samples.world_odd
                    2 samples.entity_ghost eq_refl)))
             {| synology_dsm.config_entry := Some samples.entry |}
             samples.entry eq_refl eq_refl eq_refl).
  - rewrite (proj2 (proj2 (proj2 (listen_source_updates_outcomes
                    samples.SIGNAL_CAMERA_SOURCE_CHANGED samples.world
                    1 samples.entity2 eq_refl)))
               {| synology_dsm.config_entry := Some samples.entry |}
               samples.entry samples.camera2 eq_refl eq_refl eq_refl).
    reflexivity.
Defined.

Lemma handle_signal_outcomes_witness :
  synology_dsm._handle_signal samples.entity_unplaced "rtsp://nas/1b"
    samples.world = (Return tt, samples.world)
  ∧ (∃ k, synology_dsm._handle_signal samples.entity_ghost "rtsp://nas/1b"
            samples.world = (Raise (new_exc KeyError [k]), samples.world))
  ∧ synology_dsm.streams
      (synology_dsm._handle_signal samples.entity1 "rtsp://nas/1b"
         samples.world).2 !! 0%nat
    = Some {| synology_dsm.source := "rtsp://nas/1b" |}.
Proof.
  split; [| split].
  - exact (proj1 (handle_signal_outcomes samples.entity_unplaced
                    "rtsp://nas/1b" samples.world) eq_refl).
  - exact (proj2 (proj2 (handle_signal_outcomes samples.entity_ghost
                    "rtsp://nas/1b" samples.world)) 0%nat eq_refl eq_refl).
  - rewrite (proj1 (proj2 (handle_signal_outcomes samples.entity1
                    "rtsp://nas/1b" samples.world)) 0%nat samples.camera1
               eq_refl eq_refl).
    reflexivity.
Defined.

Lemma dispatcher_send_unknown_camera_witness :
  synology_dsm.async_dispatcher_send
    (synology_dsm.signal_name samples.SIGNAL_CAMERA_SOURCE_CHANGED "0a1b2c" 7)
    "rtsp://nas/7" samples.world_listening
  = (Return tt, samples.world_listening).
Proof.
  apply (dispatcher_send_unknown_camera samples.SIGNAL_CAMERA_SOURCE_CHANGED
           samples.world_listening "0a1b2c" 7 "rtsp://nas/7" eq_refl).
  intros [|[|i]]; discriminate.
Defined.

Lemma listen_then_send_updates_stream_witness :
  ∃ w1 w2,
    synology_dsm.async_added_to_hass samples.SIGNAL_CAMERA_SOURCE_CHANGED 0
      samples.world = (Return tt, w1)
    ∧ synology_dsm.async_dispatcher_send
        (synology_dsm.signal_name samples.SIGNAL_CAMERA_SOURCE_CHANGED
           "0a1b2c" 1) "rtsp://nas/1b" w1 = (Return tt, w2)
    ∧ synology_dsm.streams w2 !! 0%nat
      = Some {| synology_dsm.source := "rtsp://nas/1b" |}.
Proof.
  exact (listen_then_send_updates_stream samples.SIGNAL_CAMERA_SOURCE_CHANGED
           samples.world 0 samples.entity1
           {| synology_dsm.config_entry := Some samples.entry |}
           samples.entry samples.camera1 0%nat
           {| synology_dsm.source := "rtsp://nas/1" |} "rtsp://nas/1b"
           eq_refl eq_refl eq_refl eq_refl eq_refl eq_refl eq_refl).
Defined.

Lemma dispatcher_send_latest_url_wins_witness :
  ∃ w1 w2,
    synology_dsm.async_dispatcher_send
      "synology_dsm.camera_stream_source_changed_0a1b2c_1" "rtsp://a"
      samples.world_listening = (Return tt, w1)
    ∧ synology_dsm.async_dispatcher_send
        "synology_dsm.camera_stream_source_changed_0a1b2c_1" "rtsp://b" w1
      = (Return tt, w2)
    ∧ synology_dsm.async_dispatcher_send
        "synology_dsm.camera_stream_source_changed_0a1b2c_1" "rtsp://b"
        samples.world_listening = (Return tt, w2).
Proof.
  exact (dispatcher_send_latest_url_wins samples.SIGNAL_CAMERA_SOURCE_CHANGED
           samples.world_listening _ "rtsp://a" "rtsp://b" eq_refl).
Defined.
